(** * wlsctx: bootstrap of a Wayland security context

    A shallow embedding of [wlsctx.py].  The script is a straight-line
    sequence of calls into the operating system (temporary directory,
    Unix socket, pipe) and into the Wayland client library (display,
    registry, security-context protocol), wrapped in three nested [with]
    blocks.  It is modelled as a program in a state-and-exception monad
    over an explicit [World]: the file system, the descriptor table, the
    Python heap cell holding the [SecurityContextExt] object, standard
    output, and the ordered log of every call that leaves the script.

    Everything the script cannot decide itself (the runtime directory, the
    random names drawn by [tempfile], what the compositor advertises and
    answers, the limit on open descriptors, whether a system call is refused
    for another reason) is an input, collected in the record [Env]. *)

From Stdlib Require Import Ascii String ZArith Lia.
From stdpp Require Import base option list strings gmap fin_maps fin_sets pretty.

Local Open Scope string_scope.
Local Open Scope list_scope.

(** ** Strings and paths, with Python's semantics *)

Module Py.

(** [str.startswith] is the Standard Library's [String.prefix]. *)
Definition startswith (self pre : string) : bool := String.prefix pre self.

(** [str.removeprefix]:
    [self[len(prefix):]] if [self.startswith(prefix)], else [self]. *)
Definition removeprefix (self pre : string) : string :=
  if startswith self pre
  then String.substring (String.length pre)
                        (String.length self - String.length pre) self
  else self.

(** [str.endswith("/")]. *)
Fixpoint endswith_sep (s : string) : bool :=
  match s with
  | EmptyString => false
  | String c EmptyString => bool_decide (c = "/"%char)
  | String _ r => endswith_sep r
  end.

(** The text after the last ['/'] of [p], [None] when [p] has none:
    [p[p.rfind('/') + 1:]] for [rfind] different from [-1]. *)
Fixpoint after_last_sep (p : string) : option string :=
  match p with
  | EmptyString => None
  | String c r =>
      match after_last_sep r with
      | Some s => Some s
      | None => if bool_decide (c = "/"%char) then Some r else None
      end
  end.

(** [posixpath.basename]: [i = p.rfind('/') + 1; return p[i:]]. *)
Definition basename (p : string) : string :=
  default p (after_last_sep p).

(** The text before the last ['/'] of [p] (the directory a system call
    resolves the last component in), [None] when [p] has no ['/']. *)
Fixpoint before_last_sep (p : string) : option string :=
  match p with
  | EmptyString => None
  | String c r =>
      match before_last_sep r with
      | Some s => Some (String c s)
      | None => if bool_decide (c = "/"%char) then Some EmptyString else None
      end
  end.

(** [posixpath.join] of two components. *)
Definition join (a b : string) : string :=
  if startswith b "/" then b
  else if bool_decide (a = "") || endswith_sep a then a +:+ b
  else a +:+ "/" +:+ b.

Definition has_sep (s : string) : bool := bool_decide (is_Some (after_last_sep s)).

End Py.

(** ** Operating-system and library data *)

(** [socket.AddressFamily] and [socket.SocketKind], the members a Linux
    build of Python offers that matter here. *)
Inductive AddressFamily := AF_UNIX | AF_INET | AF_INET6.
Inductive SocketKind := SOCK_STREAM | SOCK_DGRAM | SOCK_SEQPACKET.

(** [os.O_CLOEXEC] on Linux, octal 2000000. *)
Definition O_CLOEXEC : Z := 524288.

(** The backlog a socket listens with: [listen()] without an argument lets
    the interpreter choose its default. *)
Inductive Backlog := DefaultBacklog | ExplicitBacklog (n : nat).

(** What an open descriptor refers to. *)
Inductive FdKind :=
| FdSocket (family : AddressFamily) (kind : SocketKind) (proto : Z)
           (bound : option string) (listening : option Backlog)
| FdPipeRead
| FdPipeWrite
| FdDisplay
| FdOther.

Record FdDesc := { fd_kind : FdKind; fd_cloexec : bool }.

(** A node of a directory. *)
Inductive Node := NDir | NSocket | NFile.

(** One registry event as the client library hands it to the dispatcher. *)
Inductive RegistryEvent :=
| EvGlobal (id_ : nat) (interface : string) (version : nat)
| EvGlobalRemove (id_ : nat).

(** What the compositor does during one [dispatch] or [roundtrip]: the events
    it delivers, in order, and the integer the call returns. *)
Record Batch := { b_events : list RegistryEvent; b_result : Z }.

(** Proxies of the client library. *)
Record Registry := { reg_id : nat }.
Record ManagerProxy := { mgr_id : nat; mgr_global : nat; mgr_version : nat }.
Record ContextProxy := { ctx_id : nat }.

(** [@dataclass class SecurityContextExt: manager: None | ... = None]. *)
Record SecurityContextExt := { manager : option ManagerProxy }.


(** ** Exceptions and the calls that leave the script *)

(** The exceptions that occur.  The four file errors are the subclasses of
    [OSError] Python picks by [errno] (ENOENT, ENOTDIR, EEXIST, EACCES);
    [OSError] stands for every other failed system call and names the call;
    [ConnectError] is what the client library raises when it cannot connect
    to the compositor. *)
Inductive Exn :=
| FileNotFoundError (path : string)
| NotADirectoryError (path : string)
| FileExistsError (path : string)
| PermissionError (path : string)
| OSError (what : string)
| ConnectError
| AttributeError (what : string)
| RuntimeError (what : string).

(** A call that was carried out, with its arguments and what it returned.
    The log of a run lists them in program order. *)
Inductive Call :=
| CMkdir (path : string)
| CRmtree (path : string)
| CConnect (fd : nat)
| CDisconnect (fd : nat)
| CGetRegistry (r : Registry)
| CSetDispatcher (r : Registry) (event : string) (ext_loc : nat)
| CDispatch (result : Z)
| CRoundtrip (result : Z)
| CPrint (line : string)
| CRegistryBind (r : Registry) (id_ : nat) (interface : string) (version : nat)
                (m : ManagerProxy)
| CSocket (family : AddressFamily) (kind : SocketKind) (proto : Z) (fd : nat)
| CBind (fd : nat) (path : string)
| CListen (fd : nat) (backlog : Backlog)
| CClose (fd : nat)
| CPipe2 (flags : Z) (rd wr : nat)
| CCreateListener (m : ManagerProxy) (listen_fd close_fd : nat)
                  (listen_desc close_desc : option FdDesc) (ctx : ContextProxy)
| CSetSandboxEngine (ctx : ContextProxy) (name : string)
| CSetAppId (ctx : ContextProxy) (app_id : string)
| CSetInstanceId (ctx : ContextProxy) (instance_id : string)
| CCommit (ctx : ContextProxy)
| CDestroy (ctx : ContextProxy).

(** ** The world *)

(** The file system maps the path of every directory (without a trailing
    ['/'], so the root is the empty key) to the table of its entries. *)
Record World := {
  w_fs : gmap string (gmap string Node);
  w_fds : gmap nat FdDesc;
  (** Python heap: the [SecurityContextExt] objects, by location. *)
  w_heap : list SecurityContextExt;
  (** The descriptor of the compositor connection while connected. *)
  w_display : option nat;
  (** The entry for [global] of the registry's dispatcher: [Some (r, l)]
      once [partial(registry_global_handler, ext)], with [ext] at heap
      location [l], was stored in the dispatcher of registry [r]. *)
  w_on_global : option (Registry * nat);
  (** The name the next proxy gets.  These names tell the proxies of a run
      apart, in the order of their creation; they are not the ids on the
      wire, which the client library recycles and the script never sees. *)
  w_next_id : nat;
  (** How many [dispatch]/[roundtrip] calls were made so far. *)
  w_polls : nat;
  w_calls : list Call
}.

(** What a run depends on and the script does not decide. *)
Record Env := {
  (** [WpSecurityContextManagerV1.name], a constant of the generated
      protocol module, which is not part of the script. *)
  env_manager_name : string;
  (** The directory [TemporaryDirectory] creates the runtime directory in:
      what [xdg_runtime_dir()] returns, the value of [XDG_RUNTIME_DIR], taken
      to be set to an absolute, normalised path.  (Without it
      [xdg_runtime_dir()] is [None] and [tempfile] first looks for a default
      directory; that search is not part of this model.) *)
  env_dir : string;
  (** The random names [tempfile] draws, in order. *)
  env_names : list string;
  env_fs : gmap string (gmap string Node);
  env_fds : gmap nat FdDesc;
  (** The limit on open descriptors ([RLIMIT_NOFILE]): a descriptor the
      process opens is below it, and a call that needs one fails with
      [EMFILE] when none is free. *)
  env_nofile : nat;
  (** Whether the process is permitted to create the directory at a path. *)
  env_may_create : string → bool;
  (** Whether the call succeeds as far as anything else is concerned (the
      file system is not full or read-only, the compositor is there, the
      kernel has memory, ...). *)
  env_mkdir_ok : bool;
  env_connect_ok : bool;
  env_socket_ok : bool;
  env_bind_ok : bool;
  env_listen_ok : bool;
  env_pipe_ok : bool;
  (** What [wl_display_get_error] reports after a failed [dispatch]. *)
  env_errno : nat;
  (** The compositor's answer to the n-th [dispatch]/[roundtrip].  Every
      sequence of answers is admitted, also those that a compositor and the
      client library do not produce together (events already pending at the
      first [dispatch], a success after an error): what holds for all of
      them holds for the real ones. *)
  env_server : nat → Batch
}.

Definition initial_world (env : Env) : World :=
  {| w_fs := env_fs env; w_fds := env_fds env; w_heap := [];
     w_display := None; w_on_global := None; w_next_id := 2;
     w_polls := 0; w_calls := [] |}.

Definition set_fs (f : gmap string (gmap string Node) → gmap string (gmap string Node))
  (w : World) : World :=
  {| w_fs := f (w_fs w); w_fds := w_fds w; w_heap := w_heap w;
     w_display := w_display w; w_on_global := w_on_global w;
     w_next_id := w_next_id w; w_polls := w_polls w; w_calls := w_calls w |}.

Definition set_fds (f : gmap nat FdDesc → gmap nat FdDesc) (w : World) : World :=
  {| w_fs := w_fs w; w_fds := f (w_fds w); w_heap := w_heap w;
     w_display := w_display w; w_on_global := w_on_global w;
     w_next_id := w_next_id w; w_polls := w_polls w; w_calls := w_calls w |}.

Definition set_heap (f : list SecurityContextExt → list SecurityContextExt)
  (w : World) : World :=
  {| w_fs := w_fs w; w_fds := w_fds w; w_heap := f (w_heap w);
     w_display := w_display w; w_on_global := w_on_global w;
     w_next_id := w_next_id w; w_polls := w_polls w; w_calls := w_calls w |}.

Definition set_display (d : option nat) (w : World) : World :=
  {| w_fs := w_fs w; w_fds := w_fds w; w_heap := w_heap w;
     w_display := d; w_on_global := w_on_global w;
     w_next_id := w_next_id w; w_polls := w_polls w; w_calls := w_calls w |}.

Definition set_on_global (h : option (Registry * nat)) (w : World) : World :=
  {| w_fs := w_fs w; w_fds := w_fds w; w_heap := w_heap w;
     w_display := w_display w; w_on_global := h;
     w_next_id := w_next_id w; w_polls := w_polls w; w_calls := w_calls w |}.

Definition bump_id (w : World) : World :=
  {| w_fs := w_fs w; w_fds := w_fds w; w_heap := w_heap w;
     w_display := w_display w; w_on_global := w_on_global w;
     w_next_id := S (w_next_id w); w_polls := w_polls w; w_calls := w_calls w |}.

Definition bump_polls (w : World) : World :=
  {| w_fs := w_fs w; w_fds := w_fds w; w_heap := w_heap w;
     w_display := w_display w; w_on_global := w_on_global w;
     w_next_id := w_next_id w; w_polls := S (w_polls w); w_calls := w_calls w |}.

Definition log (c : Call) (w : World) : World :=
  {| w_fs := w_fs w; w_fds := w_fds w; w_heap := w_heap w;
     w_display := w_display w; w_on_global := w_on_global w;
     w_next_id := w_next_id w; w_polls := w_polls w;
     w_calls := w_calls w ++ [c] |}.

(** ** The monad: state over [World], with Python exceptions *)

Inductive Result (A : Type) :=
| Ok (a : A)
| Raise (e : Exn).
Arguments Ok {A} a.
Arguments Raise {A} e.

Definition M (A : Type) : Type := World → Result A * World.

#[global] Instance M_ret : MRet M := λ A a w, (Ok a, w).
#[global] Instance M_bind : MBind M := λ A B f m w,
  match m w with
  | (Ok a, w') => f a w'
  | (Raise e, w') => (Raise e, w')
  end.

Definition raise {A} (e : Exn) : M A := λ w, (Raise e, w).
Definition get_world : M World := λ w, (Ok w, w).
Definition modify (f : World → World) : M unit := λ w, (Ok tt, f w).
Definition emit (c : Call) : M unit := modify (log c).

(** The context-manager protocol of the [with] statement. *)
Class ContextManager (T V : Type) := {
  cm_enter : T → M V;
  cm_exit : T → M unit
}.

(** [with EXPR as v: body].  [EXPR] is evaluated, [__enter__] is called,
    then the body runs; [__exit__] runs whether the body returned or
    raised, and none of the three managers used here swallows the
    exception.  An exception of [__exit__] itself replaces the outcome. *)
Definition with_ {T V A} `{ContextManager T V} (expr : M T) (body : V → M A) : M A :=
  λ w,
    match expr w with
    | (Raise e, w1) => (Raise e, w1)
    | (Ok t, w1) =>
        match cm_enter t w1 with
        | (Raise e, w2) => (Raise e, w2)
        | (Ok v, w2) =>
            let '(rb, w3) := body v w2 in
            match cm_exit t w3 with
            | (Raise e, w4) => (Raise e, w4)
            | (Ok _, w4) => (rb, w4)
            end
        end
    end.

(** ** Descriptor table *)

(** The kernel hands out the lowest descriptor that is not in use. *)
Fixpoint first_free (fds : gmap nat FdDesc) (n fuel : nat) : nat :=
  match fuel with
  | 0 => n
  | S k => match fds !! n with
           | None => n
           | Some _ => first_free fds (S n) k
           end
  end.

Definition lowest_free (fds : gmap nat FdDesc) : nat :=
  first_free fds 0 (size fds).

(** Opening a descriptor; the calls that do so first make sure that one is
    left below the limit. *)
Definition open_fd (d : FdDesc) : M nat := λ w,
  let fd := lowest_free (w_fds w) in
  (Ok fd, set_fds (λ fds, <[fd := d]> fds) w).

(** How many descriptors below [limit] are not in use. *)
Fixpoint free_below (fds : gmap nat FdDesc) (limit : nat) : nat :=
  match limit with
  | 0 => 0
  | S n => match fds !! n with
           | Some _ => 0
           | None => 1
           end + free_below fds n
  end.

(** ** File system *)

(** [k] is [dir] itself or lies below it. *)
Definition under (dir k : string) : bool :=
  bool_decide (k = dir) || String.prefix (dir +:+ "/") k.

(** The node at [path], as the table of its parent directory has it. *)
Definition node_at (fs : gmap string (gmap string Node)) (path : string)
  : option Node :=
  match Py.before_last_sep path with
  | Some parent => fs !! parent ≫= λ tbl, tbl !! Py.basename path
  | None => None
  end.

(** Looking up the missing directory [dir] fails with [ENOTDIR] when, going
    up from [dir], the first path that exists is not a directory, and with
    [ENOENT] otherwise. *)
Fixpoint blocked_by_file (fs : gmap string (gmap string Node)) (dir : string)
  (fuel : nat) : bool :=
  match fuel with
  | 0 => false
  | S k =>
      match node_at fs dir with
      | Some NDir => false
      | Some _ => true
      | None =>
          match Py.before_last_sep dir with
          | Some up => blocked_by_file fs up k
          | None => false
          end
      end
  end.

(** Creating the entry [path] of kind [n] in its parent directory, as far as
    the tree decides; a new directory starts with an empty table. *)
Definition fs_create (path : string) (n : Node) (w : World) : Result unit * World :=
  match Py.before_last_sep path with
  | None => (Raise (FileNotFoundError path), w)
  | Some parent =>
      match w_fs w !! parent with
      | None =>
          if blocked_by_file (w_fs w) parent (S (String.length parent))
          then (Raise (NotADirectoryError path), w)
          else (Raise (FileNotFoundError path), w)
      | Some tbl =>
          match tbl !! Py.basename path with
          | Some _ => (Raise (FileExistsError path), w)
          | None =>
              let fs1 := <[parent := <[Py.basename path := n]> tbl]> (w_fs w) in
              (Ok tt, set_fs (λ _, match n with
                                   | NDir => <[path := ∅]> fs1
                                   | _ => fs1
                                   end) w)
          end
      end
  end.

(** What [shutil.rmtree] removes: the directory, everything below it and its
    entry in the parent. *)
Definition fs_rmtree (path : string) (fs : gmap string (gmap string Node))
  : gmap string (gmap string Node) :=
  let fs' := filter (λ kv, under path kv.1 = false) fs in
  match Py.before_last_sep path with
  | Some parent => alter (delete (Py.basename path)) parent fs'
  | None => fs'
  end.

(** [print]. *)
Definition print (line : string) : M unit := emit (CPrint line).

(** ** Python objects of the script *)

Record TemporaryDirectory := { td_name : string }.
(** [Display(name_or_fd=None)]: the connection itself lives in the world. *)
Record Display := { display_name : option string }.
Record socket := { sock_fd : nat }.

Definition fileno (s : socket) : nat := sock_fd s.

(** ** The script *)

Section Program.

Variable env : Env.

(** Whether the process can open [n] more descriptors. *)
Definition fds_left (n : nat) : M bool := λ w,
  (Ok (n <=? free_below (w_fds w) (env_nofile env))%nat, w).

(** *** [tempfile.TemporaryDirectory] *)

(** [os.mkdir]: the errors of looking up the parent and of an existing
    entry come first, then a missing permission, then whatever else makes
    the kernel refuse. *)
Definition os_mkdir (path : string) : M unit := λ w,
  match fs_create path NDir w with
  | (Ok _, w') =>
      if negb (env_may_create env path) then (Raise (PermissionError path), w)
      else if negb (env_mkdir_ok env) then (Raise (OSError "mkdir"), w)
      else (Ok tt, log (CMkdir path) w')
  | (Raise e, w') => (Raise e, w')
  end.

(** [shutil.rmtree] as [TemporaryDirectory.cleanup] calls it.  A missing
    directory is not an error.  Otherwise [rmtree] opens the directory and
    lists it through a second descriptor, both closed again before it
    returns; when the process cannot open two descriptors the [OSError] is
    passed on by [cleanup] and nothing is removed. *)
Definition rmtree (path : string) : M unit :=
  w ← get_world;
  room ← fds_left 2;
  match w_fs w !! path with
  | None => emit (CRmtree path)
  | Some _ =>
      if room : bool
      then modify (set_fs (fs_rmtree path));; emit (CRmtree path)
      else raise (OSError "rmtree")
  end.

(** [tempfile.mkdtemp]: try the candidate names in turn, skipping those
    that exist; any other error of [os.mkdir] is passed on.  The result is
    [abspath(file)], which is [file] for the absolute, normalised [dir] of
    [Env]. *)
Fixpoint mkdtemp (dir pre : string) (names : list string) : M string :=
  match names with
  | [] => raise (FileExistsError "No usable temporary directory name found")
  | name :: rest =>
      let file := Py.join dir (pre +:+ name) in
      λ w, match os_mkdir file w with
           | (Ok _, w') => (Ok file, w')
           | (Raise (FileExistsError _), w') => mkdtemp dir pre rest w'
           | (Raise e, w') => (Raise e, w')
           end
  end.

Definition TemporaryDirectory_new (dir pre : string) : M TemporaryDirectory :=
  name ← mkdtemp dir pre (env_names env);
  mret {| td_name := name |}.

#[local] Instance TemporaryDirectory_cm : ContextManager TemporaryDirectory string := {
  cm_enter td := mret (td_name td);
  cm_exit td := rmtree (td_name td)
}.

(** [xdg_runtime_dir()], resolved as [TemporaryDirectory] resolves [dir]. *)
Definition xdg_runtime_dir : string := env_dir env.

(** *** [pywayland.client.Display] and the registry *)

Definition Display_new : M Display := mret {| display_name := None |}.

(** [Display.connect()], which [Display.__enter__] calls: the connection to
    the compositor takes one descriptor. *)
Definition connect (display : Display) : M Display :=
  room ← fds_left 1;
  if env_connect_ok env && room then
    fd ← open_fd {| fd_kind := FdDisplay; fd_cloexec := true |};
    modify (set_display (Some fd));;
    emit (CConnect fd);;
    mret display
  else raise ConnectError.

Definition disconnect (_ : Display) : M unit :=
  w ← get_world;
  match w_display w with
  | Some fd =>
      modify (set_fds (delete fd));;
      modify (set_display None);;
      emit (CDisconnect fd)
  | None => mret tt
  end.

#[local] Instance Display_cm : ContextManager Display Display := {
  cm_enter := connect;
  cm_exit := disconnect
}.

(** A name for a new proxy, different from every earlier one. *)
Definition fresh_id : M nat := λ w, (Ok (w_next_id w), bump_id w).

Definition get_registry (_ : Display) : M Registry :=
  i ← fresh_id;
  emit (CGetRegistry {| reg_id := i |});;
  mret {| reg_id := i |}.

(** [registry.bind(id_, WpSecurityContextManagerV1, version)]. *)
Definition registry_bind (registry : Registry) (id_ : nat) (version : nat)
  : M ManagerProxy :=
  i ← fresh_id;
  let m := {| mgr_id := i; mgr_global := id_; mgr_version := version |} in
  emit (CRegistryBind registry id_ (env_manager_name env) version m);;
  mret m.

(** [ext = SecurityContextExt()]: a new object on the heap. *)
Definition SecurityContextExt_new : M nat := λ w,
  (Ok (length (w_heap w)), set_heap (λ h, h ++ [{| manager := None |}]) w).

(** [ext.manager = m]. *)
Definition set_manager (ext : nat) (m : ManagerProxy) : M unit :=
  modify (set_heap (λ h, <[ext := {| manager := Some m |}]> h)).

(** [ext.manager]. *)
Definition get_manager (ext : nat) : M (option ManagerProxy) := λ w,
  match w_heap w !! ext with
  | Some e => (Ok (manager e), w)
  | None => (Raise (AttributeError "manager"), w)
  end.

(** [registry_global_handler], lines 17 to 20. *)
Definition registry_global_handler (ext : nat) (registry : Registry)
  (id_ : nat) (interface : string) (version : nat) : M unit :=
  if String.eqb interface (env_manager_name env) then
    print ("got security context manager " +:+ pretty version);;
    m ← registry_bind registry id_ version;
    set_manager ext m
  else mret tt.

(** [registry.dispatcher["global"] = partial(registry_global_handler, ext)]. *)
Definition set_dispatcher_global (registry : Registry) (ext : nat) : M unit :=
  modify (set_on_global (Some (registry, ext)));;
  emit (CSetDispatcher registry "global" ext).

(** The client library delivers one event: the dispatcher has a handler
    for [global] at most, every other event is dropped. *)
Definition deliver (ev : RegistryEvent) : M unit :=
  w ← get_world;
  match ev, w_on_global w with
  | EvGlobal id_ interface version, Some (registry, ext) =>
      registry_global_handler ext registry id_ interface version
  | _, _ => mret tt
  end.

Fixpoint deliver_all (evs : list RegistryEvent) : M unit :=
  match evs with
  | [] => mret tt
  | ev :: rest => deliver ev;; deliver_all rest
  end.

(** One exchange with the compositor: the events of the next batch are
    handled, then the call returns the batch's result. *)
Definition poll : M Z := λ w,
  match w_display w with
  | None => (Raise ConnectError, w)
  | Some _ =>
      let b := env_server env (w_polls w) in
      (deliver_all (b_events b) ≫= λ _, mret (b_result b)) (bump_polls w)
  end.

(** [Display.dispatch()]: the client library raises when the C call
    returns [-1]. *)
Definition dispatch (_ : Display) : M Z :=
  r ← poll;
  if (r =? -1)%Z
  then raise (RuntimeError ("Failed with error: " +:+ pretty (env_errno env)))
  else emit (CDispatch r);; mret r.

(** [Display.roundtrip()]: the result of the C call is returned as it is. *)
Definition roundtrip (_ : Display) : M Z :=
  r ← poll; emit (CRoundtrip r);; mret r.

(** *** [socket.socket] *)

(** [socket.socket(family, type, proto)]; Python creates sockets
    non-inheritable. *)
Definition socket_new (family : AddressFamily) (kind : SocketKind) (proto : Z)
  : M socket :=
  room ← fds_left 1;
  if env_socket_ok env && room then
    fd ← open_fd {| fd_kind := FdSocket family kind proto None None;
                    fd_cloexec := true |};
    emit (CSocket family kind proto fd);;
    mret {| sock_fd := fd |}
  else raise (OSError "socket").

(** [sock.bind(path)] for a Unix socket: the socket file is created. *)
Definition sock_bind (s : socket) (path : string) : M unit := λ w,
  match w_fds w !! sock_fd s with
  | Some {| fd_kind := FdSocket family kind proto None l; fd_cloexec := ce |} =>
      if env_bind_ok env then
        match fs_create path NSocket w with
        | (Ok _, w') =>
            (Ok tt,
             log (CBind (sock_fd s) path)
               (set_fds (λ fds, <[sock_fd s :=
                   {| fd_kind := FdSocket family kind proto (Some path) l;
                      fd_cloexec := ce |}]> fds) w'))
        | (Raise _, w') => (Raise (OSError "bind"), w')
        end
      else (Raise (OSError "bind"), w)
  | _ => (Raise (OSError "bind"), w)
  end.

(** [sock.listen()] and [sock.listen(backlog)]. *)
Definition sock_listen (s : socket) (backlog : option nat) : M unit := λ w,
  match w_fds w !! sock_fd s with
  | Some {| fd_kind := FdSocket family kind proto (Some path) _; fd_cloexec := ce |} =>
      if env_listen_ok env then
        let b := match backlog with
                 | None => DefaultBacklog
                 | Some n => ExplicitBacklog n
                 end in
        (Ok tt,
         log (CListen (sock_fd s) b)
           (set_fds (λ fds, <[sock_fd s :=
               {| fd_kind := FdSocket family kind proto (Some path) (Some b);
                  fd_cloexec := ce |}]> fds) w))
      else (Raise (OSError "listen"), w)
  | _ => (Raise (OSError "listen"), w)
  end.

(** [sock.close()], which [socket.__exit__] calls. *)
Definition sock_close (s : socket) : M unit :=
  w ← get_world;
  match w_fds w !! sock_fd s with
  | Some _ => modify (set_fds (delete (sock_fd s)));; emit (CClose (sock_fd s))
  | None => mret tt
  end.

#[local] Instance socket_cm : ContextManager socket socket := {
  cm_enter s := mret s;
  cm_exit := sock_close
}.

(** *** [os.pipe2] *)

(** Both ends are opened, or neither. *)
Definition pipe2 (flags : Z) : M (nat * nat) :=
  room ← fds_left 2;
  if env_pipe_ok env && room then
    let ce := negb (Z.land flags O_CLOEXEC =? 0)%Z in
    rd ← open_fd {| fd_kind := FdPipeRead; fd_cloexec := ce |};
    wr ← open_fd {| fd_kind := FdPipeWrite; fd_cloexec := ce |};
    emit (CPipe2 flags rd wr);;
    mret (rd, wr)
  else raise (OSError "pipe2").

(** *** The security-context protocol *)

(** Looking up [create_listener] on [ext.manager]: [None] has no such
    attribute. *)
Definition getattr_create_listener (m : option ManagerProxy) : M ManagerProxy :=
  match m with
  | Some p => mret p
  | None => raise (AttributeError "create_listener")
  end.

(** [manager.create_listener(listen_fd, close_fd)].  The client library
    duplicates both descriptors when it marshals the request, so the log
    keeps what they referred to at that moment.  The call itself does not
    raise: a request that cannot be marshalled puts the connection in
    error, which shows in the result of the next round-trip. *)
Definition create_listener (m : ManagerProxy) (listen_fd close_fd : nat)
  : M ContextProxy :=
  w ← get_world;
  i ← fresh_id;
  emit (CCreateListener m listen_fd close_fd
          (w_fds w !! listen_fd) (w_fds w !! close_fd) {| ctx_id := i |});;
  mret {| ctx_id := i |}.

Definition set_sandbox_engine (c : ContextProxy) (name : string) : M unit :=
  emit (CSetSandboxEngine c name).
Definition set_app_id (c : ContextProxy) (app_id : string) : M unit :=
  emit (CSetAppId c app_id).
Definition set_instance_id (c : ContextProxy) (instance_id : string) : M unit :=
  emit (CSetInstanceId c instance_id).
Definition commit (c : ContextProxy) : M unit := emit (CCommit c).
Definition destroy (c : ContextProxy) : M unit := emit (CDestroy c).

(** *** [main], lines 22 to 44 *)

(** Lines 32 to 43: the body of [with socket.socket(...) as listen_sock]. *)
Definition socket_body (rundir instance_id : string) (display : Display)
  (ext : nat) (listen_sock : socket) : M unit :=
  sock_bind listen_sock (rundir +:+ "/wayland-1");;
  sock_listen listen_sock None;;
  sync_fds ← pipe2 O_CLOEXEC;
  let close_fd := sync_fds.2 in
  m ← get_manager ext;
  create ← getattr_create_listener m;
  security_context ← create_listener create (fileno listen_sock) close_fd;
  set_sandbox_engine security_context "io.r5t";;
  set_app_id security_context "sandbox.devenv";;
  set_instance_id security_context instance_id;;
  commit security_context;;
  destroy security_context;;
  r ← roundtrip display;
  if (r <? 0)%Z then raise (RuntimeError "Roundtrip failed") else mret tt.

(** Lines 26 to 43: the body of [with Display() as display]. *)
Definition display_body (rundir instance_id : string) (display : Display) : M unit :=
  registry ← get_registry display;
  ext ← SecurityContextExt_new;
  set_dispatcher_global registry ext;;
  dispatch display;;
  roundtrip display;;
  with_ (socket_new AF_UNIX SOCK_STREAM 0)
        (socket_body rundir instance_id display ext).

(** Lines 24 to 44: the body of [with TemporaryDirectory(...) as rundir]. *)
Definition rundir_body (rundir : string) : M unit :=
  let instance_id := Py.removeprefix (Py.basename rundir) "isol-" in
  with_ Display_new (display_body rundir instance_id);;
  print ("rundir: " +:+ rundir +:+ "/").

Definition main : M unit :=
  with_ (TemporaryDirectory_new xdg_runtime_dir "isol-") rundir_body.

(** A run of the script: [main] from the initial world.  The process exits
    when [main] returns or raises. *)
Definition run : Result unit * World := main (initial_world env).

End Program.

(** ** Observations on a run *)

(** The calls the registry handler makes: its diagnostic and the bind. *)
Definition scan_call (c : Call) : Prop :=
  match c with
  | CPrint _ | CRegistryBind _ _ _ _ _ => True
  | _ => False
  end.

(** The calls lines 32 to 43 can make. *)
Definition body_call (c : Call) : Prop :=
  match c with
  | CMkdir _ | CRmtree _ | CConnect _ | CDisconnect _ | CGetRegistry _
  | CSetDispatcher _ _ _ | CDispatch _ | CSocket _ _ _ _ | CClose _ => False
  | _ => True
  end.

(** The calls on a security context, from its creation on. *)
Definition context_call (c : Call) : bool :=
  match c with
  | CCreateListener _ _ _ _ _ _ | CSetSandboxEngine _ _ | CSetAppId _ _
  | CSetInstanceId _ _ | CCommit _ | CDestroy _ => true
  | _ => false
  end.

(** The calls that provision the listening endpoint. *)
Definition endpoint_call (c : Call) : bool :=
  match c with
  | CSocket _ _ _ _ | CBind _ _ | CListen _ _ => true
  | _ => false
  end.

Definition is_commit_on (ctx : ContextProxy) (c : Call) : bool :=
  match c with
  | CCommit c' => bool_decide (ctx_id c' = ctx_id ctx)
  | _ => false
  end.

(** How often [commit] was called on [ctx]. *)
Definition commits_on (ctx : ContextProxy) (calls : list Call) : nat :=
  length (List.filter (is_commit_on ctx) calls).

(** No event of the batch advertises the security-context manager. *)
Definition no_manager_batch (env : Env) (b : Batch) : bool :=
  forallb (λ ev, match ev with
                 | EvGlobal _ interface _ =>
                     negb (String.eqb interface (env_manager_name env))
                 | EvGlobalRemove _ => true
                 end) (b_events b).

(** The manager global is advertised neither during the initial [dispatch]
    nor during the round-trip that follows it. *)
Definition no_manager_advertised (env : Env) : bool :=
  no_manager_batch env (env_server env 0) && no_manager_batch env (env_server env 1).

(** What is left of the log after the call that destroys the context. *)
Fixpoint after_destroy (calls : list Call) : option (list Call) :=
  match calls with
  | [] => None
  | CDestroy _ :: rest => Some rest
  | _ :: rest => after_destroy rest
  end.

Fixpoint first_roundtrip (calls : list Call) : option Z :=
  match calls with
  | [] => None
  | CRoundtrip z :: _ => Some z
  | _ :: rest => first_roundtrip rest
  end.

(** The result of the final round-trip, the one of line 42 that follows
    [security_context.destroy()], when the run got that far. *)
Definition final_roundtrip (calls : list Call) : option Z :=
  after_destroy calls ≫= first_roundtrip.

(** The lines written to standard output. *)
Definition stdout (calls : list Call) : list string :=
  omap (λ c, match c with CPrint line => Some line | _ => None end) calls.

(** ** The shape of a run

    The log of a run, block by block as the [with] statements nest. *)

Definition listening_desc (path : string) : FdDesc :=
  {| fd_kind := FdSocket AF_UNIX SOCK_STREAM 0 (Some path) (Some DefaultBacklog);
     fd_cloexec := true |}.

Definition pipe_desc (k : FdKind) : FdDesc := {| fd_kind := k; fd_cloexec := true |}.

(** Lines 32 to 43, for the socket [lfd] in the directory [d]. *)
Inductive body_trace (d iid : string) (lfd : nat) : Result unit → list Call → Prop :=
| BT_bind :
    body_trace d iid lfd (Raise (OSError "bind")) []
| BT_listen :
    body_trace d iid lfd (Raise (OSError "listen"))
      [CBind lfd (d +:+ "/wayland-1")]
| BT_pipe :
    body_trace d iid lfd (Raise (OSError "pipe2"))
      [CBind lfd (d +:+ "/wayland-1"); CListen lfd DefaultBacklog]
| BT_no_manager rd wr :
    body_trace d iid lfd (Raise (AttributeError "create_listener"))
      [CBind lfd (d +:+ "/wayland-1"); CListen lfd DefaultBacklog;
       CPipe2 O_CLOEXEC rd wr]
| BT_created rd wr m ctx scan z :
    Forall scan_call scan →
    body_trace d iid lfd
      (if (z <? 0)%Z then Raise (RuntimeError "Roundtrip failed") else Ok tt)
      ([CBind lfd (d +:+ "/wayland-1"); CListen lfd DefaultBacklog;
        CPipe2 O_CLOEXEC rd wr;
        CCreateListener m lfd wr (Some (listening_desc (d +:+ "/wayland-1")))
          (Some (pipe_desc FdPipeWrite)) ctx;
        CSetSandboxEngine ctx "io.r5t";
        CSetAppId ctx "sandbox.devenv";
        CSetInstanceId ctx iid;
        CCommit ctx;
        CDestroy ctx] ++ scan ++ [CRoundtrip z]).

(** Lines 31 to 43: the [with socket.socket(...)] block. *)
Inductive socket_trace (d iid : string) : Result unit → list Call → Prop :=
| ST_failed :
    socket_trace d iid (Raise (OSError "socket")) []
| ST_entered lfd r body :
    body_trace d iid lfd r body →
    socket_trace d iid r
      (CSocket AF_UNIX SOCK_STREAM 0 lfd :: body ++ [CClose lfd]).

(** Lines 25 to 43: the [with Display()] block. *)
Inductive display_trace (d iid : string) : Result unit → list Call → Prop :=
| DT_failed :
    display_trace d iid (Raise ConnectError) []
| DT_entered dfd reg ext scan1 z1 scan2 z2 r sock :
    Forall scan_call scan1 →
    Forall scan_call scan2 →
    socket_trace d iid r sock →
    display_trace d iid r
      ([CConnect dfd; CGetRegistry reg; CSetDispatcher reg "global" ext]
       ++ scan1 ++ [CDispatch z1] ++ scan2 ++ [CRoundtrip z2]
       ++ sock ++ [CDisconnect dfd])
| DT_dispatch dfd reg ext scan1 (n : nat) :
    Forall scan_call scan1 →
    display_trace d iid (Raise (RuntimeError ("Failed with error: " +:+ pretty n)))
      ([CConnect dfd; CGetRegistry reg; CSetDispatcher reg "global" ext]
       ++ scan1 ++ [CDisconnect dfd]).

(** Lines 25 to 30 when the block is left before it has a socket. *)
Inductive early_trace : Exn → list Call → Prop :=
| ET_connect :
    early_trace ConnectError []
| ET_dispatch dfd reg ext scan1 (n : nat) :
    Forall scan_call scan1 →
    early_trace (RuntimeError ("Failed with error: " +:+ pretty n))
      ([CConnect dfd; CGetRegistry reg; CSetDispatcher reg "global" ext]
       ++ scan1 ++ [CDisconnect dfd])
| ET_socket dfd reg ext scan1 z1 scan2 z2 :
    Forall scan_call scan1 →
    Forall scan_call scan2 →
    early_trace (OSError "socket")
      ([CConnect dfd; CGetRegistry reg; CSetDispatcher reg "global" ext]
       ++ scan1 ++ [CDispatch z1] ++ scan2 ++ [CRoundtrip z2; CDisconnect dfd]).

(** The errors [mkdtemp] ends with. *)
Definition file_error (e : Exn) : Prop :=
  match e with
  | FileNotFoundError _ | NotADirectoryError _ | FileExistsError _
  | PermissionError _ => True
  | OSError what => what = "mkdir"
  | _ => False
  end.

(** Lines 23 to 44: [main].  The last case is the one in which the cleanup
    of the directory fails: the block inside was then left before it had a
    socket. *)
Inductive main_trace : Result unit → list Call → Prop :=
| MT_failed e :
    file_error e →
    main_trace (Raise e) []
| MT_raised d e inner :
    display_trace d (Py.removeprefix (Py.basename d) "isol-") (Raise e) inner →
    main_trace (Raise e) (CMkdir d :: inner ++ [CRmtree d])
| MT_returned d inner :
    display_trace d (Py.removeprefix (Py.basename d) "isol-") (Ok tt) inner →
    main_trace (Ok tt)
      (CMkdir d :: inner ++ [CPrint ("rundir: " +:+ d +:+ "/"); CRmtree d])
| MT_kept d e inner :
    early_trace e inner →
    main_trace (Raise (OSError "rmtree")) (CMkdir d :: inner).

(** What handling a batch of events may change: the heap, the object ids
    and the log, nothing else. *)
Record handled (w w' : World) : Prop := {
  h_fs : w_fs w' = w_fs w;
  h_fds : w_fds w' = w_fds w;
  h_display : w_display w' = w_display w;
  h_on_global : w_on_global w' = w_on_global w;
  h_polls : w_polls w' = w_polls w;
  h_heap_len : length (w_heap w') = length (w_heap w);
  h_calls : ∃ l, w_calls w' = w_calls w ++ l ∧ Forall scan_call l
}.

(** What every run satisfies. *)
Record run_facts (env : Env) (r : Result unit) (w : World) : Prop := {
  rf_trace : main_trace r (w_calls w);
  rf_dir_name : ∀ d, CMkdir d ∈ w_calls w →
    ∃ name, name ∈ env_names env ∧ d = Py.join (env_dir env) ("isol-" +:+ name);
  rf_dirs : ∀ d, CRmtree d ∈ w_calls w → w_fs w !! d = None;
  rf_socket : ∀ f k p fd, CSocket f k p fd ∈ w_calls w → w_fds w !! fd = None;
  rf_pipe : ∀ flags rd wr, CPipe2 flags rd wr ∈ w_calls w →
    rd ≠ wr
    ∧ w_fds w !! rd = Some (pipe_desc FdPipeRead)
    ∧ w_fds w !! wr = Some (pipe_desc FdPipeWrite)
    ∧ ∀ fd, CClose fd ∈ w_calls w ∨ CDisconnect fd ∈ w_calls w → fd ≠ rd ∧ fd ≠ wr;
  rf_no_manager : no_manager_advertised env = true →
    Forall (λ c, context_call c = false) (w_calls w)
}.


(** ** Concrete runs *)

Definition std_fds : gmap nat FdDesc :=
  {[ 0 := {| fd_kind := FdOther; fd_cloexec := false |};
     1 := {| fd_kind := FdOther; fd_cloexec := false |};
     2 := {| fd_kind := FdOther; fd_cloexec := false |} ]}.

(** A session in [/run/user/1000] where every system call succeeds and the
    usual 1024 descriptors are allowed. *)
Definition session (names : list string) (server : nat → Batch) : Env :=
  {| env_manager_name := "wp_security_context_manager_v1";
     env_dir := "/run/user/1000";
     env_names := names;
     env_fs := {[ "/run/user/1000" := ∅ ]};
     env_fds := std_fds;
     env_nofile := 1024;
     env_may_create := λ _, true;
     env_mkdir_ok := true;
     env_connect_ok := true; env_socket_ok := true; env_bind_ok := true;
     env_listen_ok := true; env_pipe_ok := true;
     env_errno := 0;
     env_server := server |}.

Definition quiet : Batch := {| b_events := []; b_result := 0 |}.

(** The compositor advertises its globals, the manager among them, during
    the first round-trip. *)
Definition server_with_manager (final : Z) (n : nat) : Batch :=
  match n with
  | 1 => {| b_events := [EvGlobal 1 "wl_compositor" 5;
                         EvGlobal 7 "wp_security_context_manager_v1" 1;
                         EvGlobalRemove 3];
            b_result := 3 |}
  | 2 => {| b_events := []; b_result := final |}
  | _ => quiet
  end.

(** The compositor does not offer the security-context protocol. *)
Definition server_without_manager (n : nat) : Batch :=
  match n with
  | 1 => {| b_events := [EvGlobal 1 "wl_compositor" 5; EvGlobal 2 "wl_shm" 1];
            b_result := 2 |}
  | _ => quiet
  end.

Definition env_ok : Env := session ["k3x_9q2a"] (server_with_manager 0).
Definition env_other : Env := session ["p0_tm4wz"] (server_with_manager 0).
Definition env_no_manager : Env := session ["k3x_9q2a"] server_without_manager.
Definition env_nack : Env := session ["k3x_9q2a"] (server_with_manager (-1)).

(** ** Further observations on a run *)

(** The last [registry.bind] call of a log. *)
Fixpoint last_bind (calls : list Call) : option Call :=
  match calls with
  | [] => None
  | c :: rest =>
      match last_bind rest with
      | Some b => Some b
      | None => match c with
                | CRegistryBind _ _ _ _ _ => Some c
                | _ => None
                end
      end
  end.

(** The log up to the first [create_listener] call. *)
Fixpoint before_create (calls : list Call) : list Call :=
  match calls with
  | [] => []
  | CCreateListener _ _ _ _ _ _ :: _ => []
  | c :: rest => c :: before_create rest
  end.

(** The proxy a [registry.bind] call returned. *)
Definition bound_proxy (c : Call) : option ManagerProxy :=
  match c with
  | CRegistryBind _ _ _ _ m => Some m
  | _ => None
  end.

(** A [registry.bind] call as the handler makes it: for the manager's
    interface, with the advertised id and version in the proxy. *)
Definition handler_bind (env : Env) (c : Call) : Prop :=
  match c with
  | CRegistryBind _ id_ interface version m =>
      interface = env_manager_name env
      ∧ mgr_global m = id_ ∧ mgr_version m = version
  | _ => True
  end.

(** The calls that release a resource. *)
Definition release_call (c : Call) : bool :=
  match c with
  | CClose _ | CDisconnect _ | CRmtree _ => true
  | _ => false
  end.

(** The call that releases what a call acquired: the three resources the
    [with] statements of [main] manage. *)
Definition release_of (c : Call) : option Call :=
  match c with
  | CMkdir d => Some (CRmtree d)
  | CConnect fd => Some (CDisconnect fd)
  | CSocket _ _ _ fd => Some (CClose fd)
  | _ => None
  end.

(** The log from the first release on. *)
Fixpoint from_first_release (calls : list Call) : list Call :=
  match calls with
  | [] => []
  | c :: rest => if release_call c then c :: rest else from_first_release rest
  end.

(** How many descriptors the process can still open when it starts. *)
Definition free_at_start (env : Env) : nat :=
  free_below (env_fds env) (env_nofile env).

(** The outcome of lines 24 to 44 as the environment decides it: the error
    of the first step that fails, in program order, and success when none
    does.  A step that opens descriptors also fails when too few are left:
    the connection takes one, the socket another one, the pipe two more. *)
Definition first_failure (env : Env) : Result unit :=
  if negb (env_connect_ok env && (1 <=? free_at_start env)%nat)
  then Raise ConnectError
  else if (b_result (env_server env 0) =? -1)%Z
  then Raise (RuntimeError ("Failed with error: " +:+ pretty (env_errno env)))
  else if negb (env_socket_ok env && (2 <=? free_at_start env)%nat)
  then Raise (OSError "socket")
  else if negb (env_bind_ok env) then Raise (OSError "bind")
  else if negb (env_listen_ok env) then Raise (OSError "listen")
  else if negb (env_pipe_ok env && (4 <=? free_at_start env)%nat)
  then Raise (OSError "pipe2")
  else if no_manager_advertised env
  then Raise (AttributeError "create_listener")
  else if (b_result (env_server env 2) <? 0)%Z
  then Raise (RuntimeError "Roundtrip failed")
  else Ok tt.

(** The result of the round-trip of line 30, the first one of the log. *)
Definition initial_roundtrip (calls : list Call) : option Z :=
  first_roundtrip calls.

(** What follows the first round-trip in the log. *)
Fixpoint after_first_roundtrip (calls : list Call) : list Call :=
  match calls with
  | [] => []
  | CRoundtrip _ :: rest => rest
  | _ :: rest => after_first_roundtrip rest
  end.

(** The compositor goes away during the first round-trip: the connection is
    in error from then on. *)
Definition server_lost (n : nat) : Batch :=
  match n with
  | 0 => quiet
  | _ => {| b_events := []; b_result := -1 |}
  end.

Definition env_lost : Env := session ["k3x_9q2a"] server_lost.

(** The environment [env] with the limit on open descriptors set to [n]. *)
Definition with_nofile (n : nat) (env : Env) : Env :=
  {| env_manager_name := env_manager_name env;
     env_dir := env_dir env;
     env_names := env_names env;
     env_fs := env_fs env;
     env_fds := env_fds env;
     env_nofile := n;
     env_may_create := env_may_create env;
     env_mkdir_ok := env_mkdir_ok env;
     env_connect_ok := env_connect_ok env;
     env_socket_ok := env_socket_ok env;
     env_bind_ok := env_bind_ok env;
     env_listen_ok := env_listen_ok env;
     env_pipe_ok := env_pipe_ok env;
     env_errno := env_errno env;
     env_server := env_server env |}.

(** The session of [env_ok] with one descriptor left: 0, 1 and 2 are in use
    and the limit is 4. *)
Definition env_exhausted : Env := with_nofile 4 env_ok.

(** The environment [env] with another file system. *)
Definition with_fs (fs : gmap string (gmap string Node)) (env : Env) : Env :=
  {| env_manager_name := env_manager_name env;
     env_dir := env_dir env;
     env_names := env_names env;
     env_fs := fs;
     env_fds := env_fds env;
     env_nofile := env_nofile env;
     env_may_create := env_may_create env;
     env_mkdir_ok := env_mkdir_ok env;
     env_connect_ok := env_connect_ok env;
     env_socket_ok := env_socket_ok env;
     env_bind_ok := env_bind_ok env;
     env_listen_ok := env_listen_ok env;
     env_pipe_ok := env_pipe_ok env;
     env_errno := env_errno env;
     env_server := env_server env |}.

(** The session of [env_ok] when [/run/user/1000] is a regular file. *)
Definition env_not_a_directory : Env :=
  with_fs {[ "/run/user" := {[ "1000" := NFile ]} ]} env_ok.

(** The compositor advertises the manager twice, at two versions. *)
Definition server_two_managers (n : nat) : Batch :=
  match n with
  | 0 => {| b_events := [EvGlobal 7 "wp_security_context_manager_v1" 1];
            b_result := 1 |}
  | 1 => {| b_events := [EvGlobal 1 "wl_compositor" 5;
                         EvGlobal 9 "wp_security_context_manager_v1" 2];
            b_result := 2 |}
  | _ => quiet
  end.

Definition env_two_managers : Env := session ["k3x_9q2a"] server_two_managers.

(** * Properties *)

(** ** Paths *)

Lemma before_last_sep_wayland (d : string) :
  Py.before_last_sep (d +:+ "/wayland-1") = Some d.
Proof.
  induction d as [|c d IH]; [reflexivity|].
  change (String c d +:+ "/wayland-1") with (String c (d +:+ "/wayland-1")).
  cbn [Py.before_last_sep]. by rewrite IH.
Qed.

Lemma after_last_sep_wayland (d : string) :
  Py.after_last_sep (d +:+ "/wayland-1") = Some "wayland-1".
Proof.
  induction d as [|c d IH]; [reflexivity|].
  change (String c d +:+ "/wayland-1") with (String c (d +:+ "/wayland-1")).
  cbn [Py.after_last_sep]. by rewrite IH.
Qed.

Lemma basename_wayland (d : string) :
  Py.basename (d +:+ "/wayland-1") = "wayland-1".
Proof. unfold Py.basename. by rewrite after_last_sep_wayland. Qed.

(** ** Descriptors *)

Lemma first_free_spec (fds : gmap nat FdDesc) (fuel n : nat) :
  (∀ i, i < n → is_Some (fds !! i)) →
  fds !! first_free fds n fuel = None ∨
  (first_free fds n fuel = n + fuel ∧ ∀ i, i < n + fuel → is_Some (fds !! i)).
Proof.
  revert n. induction fuel as [|fuel IH]; intros n Hn; cbn [first_free].
  - right. split; [lia|]. intros i Hi. apply Hn. lia.
  - destruct (fds !! n) as [d|] eqn:E; [|by left].
    destruct (IH (S n)) as [H|[H1 H2]].
    + intros i Hi. destruct (decide (i = n)) as [->|]; [by eexists|]. apply Hn. lia.
    + by left.
    + right. split; [lia|]. intros i Hi. apply H2. lia.
Qed.

(** The descriptor the kernel hands out is not in use. *)
Lemma lowest_free_fresh (fds : gmap nat FdDesc) :
  fds !! lowest_free fds = None.
Proof.
  unfold lowest_free.
  destruct (first_free_spec fds (size fds) 0) as [H|[H1 H2]]; [lia|done|].
  rewrite H1. cbn [Nat.add].
  destruct (fds !! size fds) as [d|] eqn:E; [|done]. exfalso.
  assert (Hsub : (set_seq 0 (S (size fds)) : gset nat) ⊆ dom fds).
  { intros i Hi. apply elem_of_set_seq in Hi. apply elem_of_dom.
    destruct (decide (i = size fds)) as [->|]; [by eexists|].
    apply H2. lia. }
  apply subseteq_size in Hsub. rewrite size_set_seq, size_dom in Hsub. lia.
Qed.

Lemma first_free_below (fds : gmap nat FdDesc) (fuel n : nat) :
  (∀ i, i < n → is_Some (fds !! i)) →
  ∀ i, i < first_free fds n fuel → is_Some (fds !! i).
Proof.
  revert n. induction fuel as [|fuel IH]; intros n Hn; cbn [first_free]; [done|].
  destruct (fds !! n) as [d|] eqn:E; [|done].
  apply IH. intros i Hi.
  destruct (decide (i = n)) as [->|]; [by eexists|]. apply Hn. lia.
Qed.

(** It is the lowest one: every descriptor below it is in use. *)
Lemma lowest_free_least (fds : gmap nat FdDesc) (i : nat) :
  i < lowest_free fds → is_Some (fds !! i).
Proof. apply first_free_below. lia. Qed.

Lemma lowest_free_ne (fds : gmap nat FdDesc) (fd : nat) :
  is_Some (fds !! fd) → lowest_free fds ≠ fd.
Proof.
  intros [d Hd] E. rewrite <- E, lowest_free_fresh in Hd. discriminate.
Qed.

(** A descriptor is counted as free whatever the others refer to. *)
Lemma free_below_ext (fds fds' : gmap nat FdDesc) (limit : nat) :
  (∀ i, i < limit → fds !! i = None ↔ fds' !! i = None) →
  free_below fds limit = free_below fds' limit.
Proof.
  induction limit as [|n IH]; intros H; [done|]. cbn [free_below].
  rewrite IH by (intros i Hi; apply H; lia).
  specialize (H n (Nat.lt_succ_diag_r n)).
  destruct (fds !! n), (fds' !! n); try done.
  - discriminate (proj2 H eq_refl).
  - discriminate (proj1 H eq_refl).
Qed.

Lemma free_below_pos (fds : gmap nat FdDesc) (limit i : nat) :
  i < limit → fds !! i = None → (1 ≤ free_below fds limit)%nat.
Proof.
  induction limit as [|n IH]; intros Hi Hf; [lia|]. cbn [free_below].
  destruct (decide (i = n)) as [->|]; [rewrite Hf; lia|].
  assert (1 ≤ free_below fds n)%nat by (apply IH; [lia|done]). lia.
Qed.

Lemma free_below_two (fds : gmap nat FdDesc) (limit i j : nat) :
  i ≠ j → i < limit → j < limit → fds !! i = None → fds !! j = None →
  (2 ≤ free_below fds limit)%nat.
Proof.
  induction limit as [|n IH]; intros Hne Hi Hj Fi Fj; [lia|]. cbn [free_below].
  destruct (decide (i = n)) as [->|Hin].
  - rewrite Fi. pose proof (free_below_pos fds n j ltac:(lia) Fj). lia.
  - destruct (decide (j = n)) as [->|Hjn].
    + rewrite Fj. pose proof (free_below_pos fds n i ltac:(lia) Fi). lia.
    + assert (2 ≤ free_below fds n)%nat by (apply IH; [done|lia|lia|done|done]). lia.
Qed.

Lemma free_below_free (fds : gmap nat FdDesc) (limit : nat) :
  (1 ≤ free_below fds limit)%nat → ∃ i, i < limit ∧ fds !! i = None.
Proof.
  induction limit as [|n IH]; cbn [free_below]; [lia|].
  destruct (fds !! n) eqn:E.
  - intros H. destruct IH as (i & Hi & Hf); [lia|]. exists i. split; [lia|done].
  - intros _. exists n. split; [lia|done].
Qed.

(** When a descriptor below the limit is free, the one the kernel hands out
    is below the limit. *)
Lemma lowest_free_below_limit (fds : gmap nat FdDesc) (limit : nat) :
  (1 ≤ free_below fds limit)%nat → lowest_free fds < limit.
Proof.
  intros (i & Hi & Hf)%free_below_free.
  destruct (decide (lowest_free fds ≤ i)%nat); [lia|].
  destruct (lowest_free_least fds i) as [x Hx]; [lia|]. congruence.
Qed.

(** Opening a descriptor below the limit leaves one less. *)
Lemma free_below_insert (fds : gmap nat FdDesc) (limit fd : nat) (d : FdDesc) :
  fds !! fd = None → fd < limit →
  free_below fds limit = S (free_below (<[fd := d]> fds) limit).
Proof.
  induction limit as [|n IH]; intros Hf Hlt; [lia|]. cbn [free_below].
  destruct (decide (fd = n)) as [->|Hne].
  - rewrite Hf, lookup_insert_eq. cbn. f_equal.
    apply free_below_ext. intros i Hi. by rewrite lookup_insert_ne by lia.
  - rewrite lookup_insert_ne by done. rewrite (IH Hf) by lia. lia.
Qed.

(** Changing what an open descriptor refers to leaves the count alone. *)
Lemma free_below_insert_used (fds : gmap nat FdDesc) (limit fd : nat) (d : FdDesc) :
  is_Some (fds !! fd) →
  free_below (<[fd := d]> fds) limit = free_below fds limit.
Proof.
  intros [x Hx]. apply free_below_ext. intros i _.
  destruct (decide (fd = i)) as [->|]; [|by rewrite lookup_insert_ne].
  rewrite lookup_insert_eq, Hx. split; discriminate.
Qed.

(** ** File system *)

Lemma fs_rmtree_gone (d : string) (fs : gmap string (gmap string Node)) :
  fs_rmtree d fs !! d = None.
Proof.
  unfold fs_rmtree.
  assert (H : filter (λ kv : string * gmap string Node, under d kv.1 = false) fs !! d = None).
  { apply map_lookup_filter_None. right. intros x _. cbn. unfold under.
    rewrite bool_decide_eq_true_2 by done. done. }
  destruct (Py.before_last_sep d) as [p|]; [|done].
  rewrite lookup_alter. case_decide; [|done]. subst. by rewrite H.
Qed.

(** ** Event handling *)

Ltac munfold :=
  unfold print in *; unfold emit in *;
  unfold mbind, mret, M_bind, M_ret, raise, modify, get_world in *;
  cbv beta iota in *.

Lemma handled_refl (w : World) : handled w w.
Proof.
  split; try done. exists []. by rewrite app_nil_r.
Qed.

Lemma handled_trans (w1 w2 w3 : World) :
  handled w1 w2 → handled w2 w3 → handled w1 w3.
Proof.
  intros [? ? ? ? ? ? (l1 & E1 & F1)] [? ? ? ? ? ? (l2 & E2 & F2)].
  split; try congruence.
  exists (l1 ++ l2). split; [|by apply Forall_app].
  by rewrite E2, E1, app_assoc.
Qed.

Lemma registry_global_handler_handled env ext reg id_ interface version w :
  ∃ w', registry_global_handler env ext reg id_ interface version w = (Ok tt, w')
        ∧ handled w w'.
Proof.
  unfold registry_global_handler.
  destruct (String.eqb interface (env_manager_name env)).
  - eexists. split; [reflexivity|].
    split; cbn; try done.
    + by rewrite length_insert.
    + eexists [_; _]. split; [by rewrite <- app_assoc|].
      repeat constructor.
  - exists w. split; [done|apply handled_refl].
Qed.

Lemma deliver_handled env ev w :
  ∃ w', deliver env ev w = (Ok tt, w') ∧ handled w w'.
Proof.
  unfold deliver. munfold.
  destruct ev as [id_ interface version|id_]; destruct (w_on_global w) as [[reg ext]|];
    try (exists w; split; [done|apply handled_refl]).
  apply registry_global_handler_handled.
Qed.

Lemma deliver_all_handled env evs w :
  ∃ w', deliver_all env evs w = (Ok tt, w') ∧ handled w w'.
Proof.
  revert w. induction evs as [|ev evs IH]; intros w.
  - exists w. split; [done|apply handled_refl].
  - destruct (deliver_handled env ev w) as (w1 & E1 & H1).
    destruct (IH w1) as (w2 & E2 & H2).
    exists w2. split; [|by eapply handled_trans].
    cbn [deliver_all]. munfold. by rewrite E1.
Qed.

(** Events that do not advertise the manager leave the world as it is. *)
Lemma deliver_all_no_manager env b w :
  no_manager_batch env b = true →
  deliver_all env (b_events b) w = (Ok tt, w).
Proof.
  unfold no_manager_batch. generalize (b_events b). intros evs.
  induction evs as [|ev evs IH]; [done|]. cbn [forallb].
  intros [Hev Hrest]%andb_prop. cbn [deliver_all]. munfold.
  assert (E : deliver env ev w = (Ok tt, w)).
  { unfold deliver. munfold. destruct ev as [id_ interface version|id_];
      destruct (w_on_global w) as [[reg ext]|]; try done.
    unfold registry_global_handler.
    by destruct (String.eqb interface (env_manager_name env)). }
  rewrite E. by apply IH.
Qed.

(** One exchange with the compositor while connected. *)
Lemma poll_spec env w dfd :
  w_display w = Some dfd →
  ∃ w', poll env w = (Ok (b_result (env_server env (w_polls w))), w')
        ∧ handled (bump_polls w) w'
        ∧ (no_manager_batch env (env_server env (w_polls w)) = true →
           w' = bump_polls w).
Proof.
  intros Hd. unfold poll. rewrite Hd.
  destruct (deliver_all_handled env (b_events (env_server env (w_polls w)))
              (bump_polls w)) as (w' & E & H).
  exists w'. munfold. rewrite E. split; [done|]. split; [done|].
  intros Hn. rewrite (deliver_all_no_manager _ _ _ Hn) in E. congruence.
Qed.

(** ** The body of the socket block *)

(** Membership of a call in a log that is known up to the handler's calls. *)
Ltac mem_inv H :=
  first
    [ apply elem_of_nil in H; destruct H
    | apply elem_of_cons in H; destruct H as [H|H];
      [ try discriminate H | mem_inv H ]
    | apply elem_of_app in H; destruct H as [H|H]; [ mem_inv H | mem_inv H ]
    | match type of H with
      | _ ∈ ?l =>
          match goal with
          | F : Forall ?P l |- _ =>
              let F' := fresh in
              pose proof (proj1 (Forall_forall P l) F _ H) as F';
              cbn in F'; first [ contradiction | discriminate F' | clear F' ]
          end
      end
    | idtac ].

Ltac close_branch :=
  cbn [w_calls w_display w_fds w_fs w_heap log set_fds set_fs];
  rewrite <- ?app_assoc; cbn [app];
  split_and?; try done; intros;
  try (rewrite lookup_insert_eq; by eexists);
  try match goal with H : _ ∈ _ |- _ => mem_inv H end.

Lemma cloexec_flag : negb (Z.land O_CLOEXEC O_CLOEXEC =? 0)%Z = true.
Proof. reflexivity. Qed.

Lemma socket_body_spec env d iid display ext lfd dfd e w :
  w_fds w !! lfd = Some {| fd_kind := FdSocket AF_UNIX SOCK_STREAM 0 None None;
                           fd_cloexec := true |} →
  w_fs w !! d = Some ∅ →
  w_display w = Some dfd →
  w_heap w !! ext = Some e →
  ∃ r w' calls,
    socket_body env d iid display ext {| sock_fd := lfd |} w = (r, w')
    ∧ body_trace d iid lfd r calls
    ∧ w_calls w' = w_calls w ++ calls
    ∧ w_display w' = w_display w
    ∧ (∀ fd, is_Some (w_fds w !! fd) → is_Some (w_fds w' !! fd))
    ∧ (∀ flags rd wr, CPipe2 flags rd wr ∈ calls →
         rd ≠ wr ∧ w_fds w !! rd = None ∧ w_fds w !! wr = None
         ∧ w_fds w' !! rd = Some (pipe_desc FdPipeRead)
         ∧ w_fds w' !! wr = Some (pipe_desc FdPipeWrite))
    ∧ (r = Ok tt → w_fs w' !! d = Some {[ "wayland-1" := NSocket ]})
    ∧ (∀ m l c ld cd ctx, CCreateListener m l c ld cd ctx ∈ calls →
         manager e = Some m)
    ∧ is_Some (w_fs w' !! d).
Proof.
  intros Hs Hfs Hd Hh.
  unfold socket_body. munfold. unfold sock_bind. cbn [sock_fd]. rewrite Hs.
  (* bind *)
  destruct (env_bind_ok env).
  2:{ eexists _, _, []. split; [reflexivity|]. split; [constructor|].
      rewrite app_nil_r. repeat split; try done.
      all: intros; exfalso; eapply not_elem_of_nil; eauto. }
  unfold fs_create.
  rewrite before_last_sep_wayland, Hfs, basename_wayland, lookup_empty.
  set (path := d +:+ "/wayland-1").
  set (fdsA := <[lfd := {| fd_kind := FdSocket AF_UNIX SOCK_STREAM 0 (Some path) None;
                           fd_cloexec := true |}]> (w_fds w)).
  assert (HA : ∀ fd, is_Some (w_fds w !! fd) → is_Some (fdsA !! fd)).
  { intros fd Hfd. subst fdsA. destruct (decide (lfd = fd)) as [->|];
      [rewrite lookup_insert_eq; eauto | by rewrite lookup_insert_ne]. }
  (* listen *)
  unfold sock_listen. cbn [sock_fd w_fds log set_fds set_fs].
  fold fdsA. replace (fdsA !! lfd) with
    (Some {| fd_kind := FdSocket AF_UNIX SOCK_STREAM 0 (Some path) None;
             fd_cloexec := true |}) by (subst fdsA; by rewrite lookup_insert_eq).
  destruct (env_listen_ok env).
  2:{ eexists _, _, [_]. split; [reflexivity|]. split; [constructor|].
      close_branch. }
  set (fdsB := <[lfd := listening_desc path]> fdsA).
  assert (HB : ∀ fd, is_Some (w_fds w !! fd) → is_Some (fdsB !! fd)).
  { intros fd Hfd. subst fdsB. destruct (decide (lfd = fd)) as [->|];
      [rewrite lookup_insert_eq; eauto | rewrite lookup_insert_ne; auto]. }
  (* pipe2 *)
  unfold pipe2, fds_left. munfold.
  cbn [w_fds log set_fds set_fs].
  destruct (env_pipe_ok env && _).
  2:{ eexists _, _, [_; _]. split; [reflexivity|]. split; [constructor|].
      close_branch. }
  change (negb (Z.land O_CLOEXEC O_CLOEXEC =? 0)%Z) with true. unfold open_fd.
  cbn [sock_fd w_fds w_fs w_heap w_display w_calls log set_fds set_fs].
  fold fdsA. fold (listening_desc path). fold fdsB.
  fold (pipe_desc FdPipeRead). fold (pipe_desc FdPipeWrite).
  set (rd := lowest_free fdsB).
  set (fdsC := <[rd := pipe_desc FdPipeRead]> fdsB).
  set (wr := lowest_free fdsC).
  set (fdsD := <[wr := pipe_desc FdPipeWrite]> fdsC).
  assert (Hrd : fdsB !! rd = None) by apply lowest_free_fresh.
  assert (Hwr : fdsC !! wr = None) by apply lowest_free_fresh.
  assert (Hlfd : fdsB !! lfd = Some (listening_desc path))
    by (subst fdsB; by rewrite lookup_insert_eq).
  assert (Hrl : rd ≠ lfd) by (intros E; rewrite E, Hlfd in Hrd; discriminate).
  assert (Hwrd : wr ≠ rd).
  { intros E. subst fdsC. rewrite E, lookup_insert_eq in Hwr. discriminate. }
  assert (Hwl : wr ≠ lfd).
  { intros E. subst fdsC. rewrite E, lookup_insert_ne, Hlfd in Hwr by done.
    discriminate. }
  assert (Hrd0 : w_fds w !! rd = None).
  { destruct (w_fds w !! rd) eqn:E; [|done].
    destruct (HB rd) as [x Hx]; [by eexists|]. rewrite Hx in Hrd. discriminate. }
  assert (Hwr0 : w_fds w !! wr = None).
  { destruct (w_fds w !! wr) eqn:E; [|done].
    destruct (HB wr) as [x Hx]; [by eexists|].
    subst fdsC. rewrite lookup_insert_ne, Hx in Hwr by done. discriminate. }
  assert (HD : ∀ fd, is_Some (w_fds w !! fd) → is_Some (fdsD !! fd)).
  { intros fd Hfd. subst fdsD fdsC.
    destruct (decide (wr = fd)) as [->|]; [rewrite lookup_insert_eq; eauto|].
    rewrite lookup_insert_ne by done.
    destruct (decide (rd = fd)) as [->|]; [rewrite lookup_insert_eq; eauto|].
    rewrite lookup_insert_ne by done. auto. }
  assert (HDrd : fdsD !! rd = Some (pipe_desc FdPipeRead)).
  { subst fdsD fdsC. rewrite lookup_insert_ne by done. by rewrite lookup_insert_eq. }
  assert (HDwr : fdsD !! wr = Some (pipe_desc FdPipeWrite)).
  { subst fdsD. by rewrite lookup_insert_eq. }
  assert (HDl : fdsD !! lfd = Some (listening_desc path)).
  { subst fdsD fdsC. by rewrite !lookup_insert_ne by done. }
  (* ext.manager.create_listener *)
  unfold get_manager. cbn [w_heap log set_fds set_fs]. rewrite Hh.
  unfold getattr_create_listener. munfold.
  destruct (manager e) as [m|] eqn:Hm.
  2:{ eexists _, _, [_; _; _]. split; [reflexivity|]. split; [constructor|].
      close_branch.
      all: injection H as -> -> ->;
        first [ done | exact Hrd0 | exact Hwr0 | exact HDrd | exact HDwr ]. }
  unfold create_listener, fresh_id, set_sandbox_engine, set_app_id,
    set_instance_id, commit, destroy, roundtrip, fileno. munfold.
  cbn [sock_fd w_heap w_fds w_fs w_next_id w_display w_calls log set_fds set_fs bump_id snd].
  match goal with
  | |- context [CCreateListener _ _ _ ?a ?b _] =>
      change a with (fdsD !! lfd); change b with (fdsD !! wr)
  end.
  rewrite HDl, HDwr.
  match goal with |- context [poll env ?w0] =>
    destruct (poll_spec env w0 dfd Hd) as (w' & -> & Hw' & _) end.
  destruct Hw' as [Hfs' Hfds' Hdisp' _ _ _ (scan & Hcalls & Hscan)].
  cbn in Hfs', Hfds', Hdisp', Hcalls.
  set (z := b_result _).
  eexists (if (z <? 0)%Z then Raise (RuntimeError "Roundtrip failed") else Ok tt),
    (log (CRoundtrip z) w'), _.
  split; [by destruct (z <? 0)%Z|].
  split; [by apply (BT_created d iid lfd rd wr m {| ctx_id := w_next_id w |} scan z)|].
  cbn [w_calls w_display w_fds w_fs log].
  rewrite Hcalls, Hfs', Hfds', Hdisp'.
  close_branch.
  - injection H as -> -> ->. split_and!; done.
  - by inversion H.
Qed.

(** ** The body of the directory block *)

Lemma scan_call_no_context (l : list Call) :
  Forall scan_call l → Forall (λ c, context_call c = false) l.
Proof. intros H. eapply Forall_impl; [exact H|]. by intros []. Qed.

Lemma scan_call_body (l : list Call) :
  Forall scan_call l → Forall body_call l.
Proof. intros H. eapply Forall_impl; [exact H|]. by intros []. Qed.

Lemma body_trace_calls d iid lfd r body :
  body_trace d iid lfd r body → Forall body_call body.
Proof.
  destruct 1; cbn [app]; repeat (apply Forall_cons_2; [exact I|]);
    try apply Forall_nil_2.
  apply Forall_app_2; [by apply scan_call_body|by repeat constructor].
Qed.

Ltac forall_calls :=
  cbn [app];
  repeat first
    [ assumption
    | apply Forall_nil_2
    | apply Forall_cons_2; [reflexivity|]
    | apply Forall_app_2
    | by apply scan_call_no_context ].

Lemma rundir_body_spec env d w :
  w_fs w !! d = Some ∅ →
  ∃ r w' inner,
    rundir_body env d w = (r, w')
    ∧ display_trace d (Py.removeprefix (Py.basename d) "isol-") r inner
    ∧ w_calls w' =
        w_calls w ++ inner ++
          match r with
          | Ok _ => [CPrint ("rundir: " +:+ d +:+ "/")]
          | Raise _ => []
          end
    ∧ (∀ f k p fd, CSocket f k p fd ∈ inner → w_fds w' !! fd = None)
    ∧ (∀ flags rd wr, CPipe2 flags rd wr ∈ inner →
         rd ≠ wr
         ∧ w_fds w' !! rd = Some (pipe_desc FdPipeRead)
         ∧ w_fds w' !! wr = Some (pipe_desc FdPipeWrite)
         ∧ ∀ fd, CClose fd ∈ inner ∨ CDisconnect fd ∈ inner → fd ≠ rd ∧ fd ≠ wr)
    ∧ (r = Ok tt → w_fs w' !! d = Some {[ "wayland-1" := NSocket ]})
    ∧ (no_manager_batch env (env_server env (w_polls w)) = true →
       no_manager_batch env (env_server env (S (w_polls w))) = true →
       Forall (λ c, context_call c = false) inner)
    ∧ is_Some (w_fs w' !! d)
    ∧ ((2 ≤ free_below (w_fds w') (env_nofile env))%nat
       ∨ ∃ e, r = Raise e ∧ early_trace e inner).
Proof.
  intros Hfs.
  unfold rundir_body, with_, Display_new. cbn [cm_enter cm_exit Display_cm].
  munfold. unfold connect, fds_left. munfold.
  destruct (env_connect_ok env && _) eqn:Hconn.
  2:{ munfold. eexists _, _, []. split; [reflexivity|]. split; [constructor|].
      rewrite !app_nil_r. split_and!; try done.
      all: try (intros; exfalso; eapply not_elem_of_nil; by eauto).
      right. eexists. split; [done|constructor]. }
  apply andb_prop in Hconn as [_ Hroom1]. apply Nat.leb_le in Hroom1.
  apply lowest_free_below_limit in Hroom1.
  unfold display_body, get_registry, SecurityContextExt_new, set_dispatcher_global,
    dispatch, roundtrip, open_fd, fresh_id. munfold.
  cbn [w_fds w_fs w_heap w_display w_next_id w_calls w_polls w_on_global
       log set_fds set_fs set_heap set_display set_on_global bump_id].
  set (dfd := lowest_free (w_fds w)) in *.
  set (ext := length (w_heap w)).
  (* dispatch *)
  match goal with |- context [poll env ?w0] =>
    destruct (poll_spec env w0 dfd eq_refl) as (w1 & -> & H1 & N1) end.
  cbv beta iota.
  destruct H1 as [Hfs1 Hfds1 Hdisp1 _ Hpolls1 Hlen1 (scan1 & Hcalls1 & Hscan1)].
  cbn in Hfs1, Hfds1, Hdisp1, Hpolls1, Hlen1, Hcalls1, N1.
  cbn [w_polls log set_on_global set_heap bump_id set_display set_fds] in *.
  set (reg := {| reg_id := w_next_id w |}) in *.
  set (z1 := b_result (env_server env (w_polls w))) in *.
  set (iid := Py.removeprefix (Py.basename d) "isol-").
  destruct (z1 =? -1)%Z eqn:Hz1.
  { unfold disconnect. munfold. rewrite Hdisp1. munfold.
    eexists _, _, _. split; [reflexivity|].
    split; [by apply (DT_dispatch d iid dfd reg ext scan1)|].
    cbn [w_calls w_fds w_fs log set_fds set_display]. rewrite Hcalls1.
    split; [by rewrite <- !app_assoc|].
    split_and!; try done; intros.
    - mem_inv H.
    - mem_inv H.
    - forall_calls.
    - rewrite Hfs1, Hfs. by eexists.
    - right. eexists. split; [done|]. by constructor. }
  (* roundtrip *)
  munfold.
  match goal with |- context [poll env ?w0] =>
    destruct (poll_spec env w0 dfd Hdisp1) as (w2 & -> & H2 & N2) end.
  cbv beta iota.
  destruct H2 as [Hfs2 Hfds2 Hdisp2 _ Hpolls2 Hlen2 (scan2 & Hcalls2 & Hscan2)].
  cbn in Hfs2, Hfds2, Hdisp2, Hpolls2, Hlen2, Hcalls2, N2.
  cbn [w_polls log set_on_global set_heap bump_id set_display set_fds] in *.
  set (z2 := b_result (env_server env (w_polls w1))) in *.
  assert (Hpre : w_calls w2 =
    w_calls w ++ [CConnect dfd; CGetRegistry reg; CSetDispatcher reg "global" ext]
      ++ scan1 ++ [CDispatch z1] ++ scan2).
  { rewrite Hcalls2, Hcalls1. by rewrite <- !app_assoc. }
  assert (Hfds : w_fds w2 = <[dfd := {| fd_kind := FdDisplay; fd_cloexec := true |}]> (w_fds w))
    by congruence.
  assert (Hdisp : w_display w2 = Some dfd) by congruence.
  assert (Hfsd : w_fs w2 !! d = Some ∅) by congruence.
  clear Hcalls1 Hcalls2 Hfds1 Hfds2 Hdisp1 Hdisp2 Hfs1 Hfs2.
  (* socket.socket *)
  unfold with_, socket_new, fds_left. cbn [cm_enter cm_exit socket_cm]. munfold.
  cbn [w_fds log].
  destruct (env_socket_ok env && _) eqn:Hsock.
  2:{ unfold disconnect. munfold. cbn [w_display log]. rewrite Hdisp. munfold.
      eexists _, _, _. split; [reflexivity|].
      split.
      { apply (DT_entered d iid dfd reg ext scan1 z1 scan2 z2 _ []); try done.
        constructor. }
      cbn [w_calls w_fds w_fs log set_fds set_display]. rewrite Hpre.
      split; [by rewrite <- !app_assoc|].
      split_and!; try done; intros.
      - mem_inv H.
      - mem_inv H.
      - forall_calls.
      - right. eexists. split; [done|]. by constructor. }
  apply andb_prop in Hsock as [_ Hroom2]. apply Nat.leb_le in Hroom2.
  apply lowest_free_below_limit in Hroom2.
  unfold open_fd. munfold.
  cbn [w_fds w_fs w_heap w_display w_calls log set_fds].
  set (lfd := lowest_free (w_fds w2)) in *.
  assert (Hld : lfd ≠ dfd).
  { apply lowest_free_ne. rewrite Hfds, lookup_insert_eq. eauto. }
  assert (Hext : ∃ e, w_heap w2 !! ext = Some e
                      ∧ (no_manager_batch env (env_server env (w_polls w)) = true →
                         no_manager_batch env (env_server env (S (w_polls w))) = true →
                         manager e = None)).
  { destruct (lookup_lt_is_Some_2 (w_heap w2) ext) as [e He].
    { rewrite Hlen2, Hlen1, length_app. cbn. subst ext. lia. }
    exists e. split; [done|]. intros Hn1 Hn2.
    rewrite (N1 Hn1) in N2. cbn in N2. rewrite (N2 Hn2) in He. cbn in He.
    subst ext. rewrite list_lookup_middle in He by done. by injection He as <-. }
  destruct Hext as (e & He & Hnone).
  match goal with |- context [socket_body env d iid ?c ext ?s ?w0] =>
    destruct (socket_body_spec env d iid c ext lfd dfd e w0)
      as (r & w3 & body & -> & Hbody & Hcalls3 & Hdisp3 & Hmono & Hpipe & Hfs3 & Hmgr
          & Hdir3)
  end.
  { cbn. by rewrite lookup_insert_eq. }
  { done. }
  { done. }
  { done. }
  cbn [w_fds w_fs w_heap w_display w_calls log set_fds] in *.
  (* leaving the socket and display blocks *)
  unfold sock_close, disconnect. munfold. cbn [sock_fd].
  destruct (Hmono lfd) as [x Hx]; [rewrite lookup_insert_eq; eauto|].
  rewrite Hx. munfold.
  cbn [w_fds w_fs w_heap w_display w_calls log set_fds].
  rewrite Hdisp3, Hdisp. munfold.
  pose proof (body_trace_calls _ _ _ _ _ Hbody) as Hbc.
  assert (Hfd3 : w_fds w2 !! dfd = Some {| fd_kind := FdDisplay; fd_cloexec := true |})
    by (by rewrite Hfds, lookup_insert_eq).
  set (W := log (CDisconnect dfd)
              (set_display None
                 (set_fds (delete dfd)
                    (log (CClose lfd) (set_fds (delete lfd) w3))))).
  exists r, (match r with
             | Ok _ => log (CPrint ("rundir: " +:+ d +:+ "/")) W
             | Raise _ => W
             end),
    ([CConnect dfd; CGetRegistry reg; CSetDispatcher reg "global" ext]
     ++ scan1 ++ [CDispatch z1] ++ scan2 ++ [CRoundtrip z2]
     ++ (CSocket AF_UNIX SOCK_STREAM 0 lfd :: body ++ [CClose lfd])
     ++ [CDisconnect dfd]).
  split; [by destruct r as [[]|]|].
  split; [by apply DT_entered; [..|apply ST_entered]|].
  assert (HW : w_fds (match r with
                      | Ok _ => log (CPrint ("rundir: " +:+ d +:+ "/")) W
                      | Raise _ => W
                      end) = delete dfd (delete lfd (w_fds w3)))
    by (by destruct r).
  assert (HWfs : w_fs (match r with
                       | Ok _ => log (CPrint ("rundir: " +:+ d +:+ "/")) W
                       | Raise _ => W
                       end) = w_fs w3)
    by (by destruct r).
  rewrite HW, HWfs.
  split.
  { destruct r; subst W; cbn [w_calls log set_display set_fds];
      rewrite Hcalls3, Hpre, <- !app_assoc; cbn [app]; by rewrite <- ?app_assoc. }
  split_and!.
  - intros f k p fd H. mem_inv H. injection H as -> -> -> ->.
    rewrite lookup_delete_ne by done. apply lookup_delete_eq.
  - intros flags rd wr H. mem_inv H.
    destruct (Hpipe _ _ _ H) as (Hne & Hrd & Hwr & Hrd3 & Hwr3).
    assert (rd ≠ lfd) by (intros ->; by rewrite lookup_insert_eq in Hrd).
    assert (wr ≠ lfd) by (intros ->; by rewrite lookup_insert_eq in Hwr).
    rewrite lookup_insert_ne in Hrd, Hwr by done.
    assert (rd ≠ dfd) by (intros ->; by rewrite Hfd3 in Hrd).
    assert (wr ≠ dfd) by (intros ->; by rewrite Hfd3 in Hwr).
    rewrite !lookup_delete_ne by done.
    split_and!; try done.
    intros fd [Hc|Hc]; mem_inv Hc; by injection Hc as ->.
  - intros ->. by apply Hfs3.
  - intros Hn1 Hn2. specialize (Hnone Hn1 Hn2).
    assert (Forall (λ c, context_call c = false) body).
    { destruct Hbody; [forall_calls..|]. exfalso.
      enough (manager e = Some m) by congruence.
      eapply Hmgr. apply elem_of_app. left.
      do 3 apply list_elem_of_further. apply list_elem_of_here. }
    forall_calls.
  - done.
  - left. apply (free_below_two _ _ lfd dfd); try done.
    + rewrite lookup_delete_ne by done. apply lookup_delete_eq.
    + apply lookup_delete_eq.
Qed.

(** ** The whole run *)

(** [mkdtemp] either fails and leaves the world alone, or creates one new,
    empty directory named after one of the candidate names. *)
Lemma mkdtemp_spec env dir pre names w :
  (∃ e, mkdtemp env dir pre names w = (Raise e, w) ∧ file_error e)
  ∨ (∃ name d w',
       mkdtemp env dir pre names w = (Ok d, w')
       ∧ name ∈ names
       ∧ d = Py.join dir (pre +:+ name)
       ∧ w' = log (CMkdir d) (set_fs (λ _, w_fs w') w)
       ∧ w_fs w' !! d = Some ∅).
Proof.
  induction names as [|name names IH]; cbn [mkdtemp].
  - left. by eexists.
  - unfold os_mkdir, fs_create. munfold.
    destruct (Py.before_last_sep _) as [parent|]; [|left; by eexists].
    destruct (w_fs w !! parent) as [tbl|].
    2:{ left. destruct (blocked_by_file _ _ _); by eexists. }
    destruct (tbl !! _).
    + destruct IH as [IH|(name' & d & w' & E & Hin & IH)]; [by left|].
      right. exists name', d, w'. split_and!; try done; try apply IH.
      by apply list_elem_of_further.
    + destruct (env_may_create env _); cbn [negb]; [|left; by eexists].
      destruct (env_mkdir_ok env); cbn [negb]; [|left; by eexists].
      right. eexists name, _, _. split; [reflexivity|].
      split; [apply list_elem_of_here|]. split; [done|].
      cbn. split; [done|]. by rewrite lookup_insert_eq.
Qed.

(** [main] is the directory block around [rundir_body]: either no directory
    could be created and nothing happened, or the body ran in a new
    directory; leaving the block removes the directory, whatever the body's
    outcome, unless the process cannot open the two descriptors this takes:
    then the error of the cleanup is the outcome and the directory stays. *)
Lemma main_cases env :
  (∃ e, run env = (Raise e, initial_world env) ∧ file_error e)
  ∨ (∃ name d w1 r w2,
       name ∈ env_names env
       ∧ d = Py.join (env_dir env) ("isol-" +:+ name)
       ∧ TemporaryDirectory_new env (xdg_runtime_dir env) "isol-" (initial_world env)
         = (Ok {| td_name := d |}, w1)
       ∧ w1 = log (CMkdir d) (set_fs (λ _, w_fs w1) (initial_world env))
       ∧ w_fs w1 !! d = Some ∅
       ∧ rundir_body env d w1 = (r, w2)
       ∧ run env =
           if (2 <=? free_below (w_fds w2) (env_nofile env))%nat
           then (r, log (CRmtree d) (set_fs (fs_rmtree d) w2))
           else (Raise (OSError "rmtree"), w2)).
Proof.
  unfold run, main, with_, TemporaryDirectory_new, xdg_runtime_dir. munfold.
  destruct (mkdtemp_spec env (env_dir env) "isol-" (env_names env) (initial_world env))
    as [(e & -> & He)|(name & d & w1 & -> & Hin & Hd & Hw1 & Hfs)].
  - left. by eexists.
  - right. cbn [cm_enter cm_exit TemporaryDirectory_cm td_name]. munfold.
    destruct (rundir_body_spec env d w1 Hfs)
      as (r & w2 & inner & E & _ & _ & _ & _ & _ & _ & [T HT] & _).
    rewrite E. exists name, d, w1, r, w2. split_and!; try done.
    unfold rmtree, fds_left. munfold. rewrite HT.
    by destruct (2 <=? _)%nat.
Qed.

Lemma display_trace_calls d iid r inner :
  display_trace d iid r inner →
  Forall (λ c, match c with CMkdir _ | CRmtree _ => False | _ => True end) inner.
Proof.
  assert (S : ∀ l, Forall scan_call l →
    Forall (λ c, match c with CMkdir _ | CRmtree _ => False | _ => True end) l).
  { intros l H. eapply Forall_impl; [exact H|]. by intros []. }
  assert (B : ∀ l, Forall body_call l →
    Forall (λ c, match c with CMkdir _ | CRmtree _ => False | _ => True end) l).
  { intros l H. eapply Forall_impl; [exact H|]. by intros []. }
  destruct 1 as [|dfd reg ext scan1 z1 scan2 z2 r sock H1 H2 Hs
                 |dfd reg ext scan1 n H1]; [constructor|..].
  - cbn [app]. repeat (apply Forall_cons_2; [exact I|]).
    apply Forall_app_2; [by apply S|]. apply Forall_cons_2; [exact I|].
    apply Forall_app_2; [by apply S|]. apply Forall_cons_2; [exact I|].
    apply Forall_app_2; [|by repeat constructor].
    destruct Hs as [|lfd r body Hb]; [constructor|].
    apply Forall_cons_2; [exact I|].
    apply Forall_app_2; [|by repeat constructor].
    apply B. by eapply body_trace_calls.
  - cbn [app]. repeat (apply Forall_cons_2; [exact I|]).
    apply Forall_app_2; [by apply S|]. by repeat constructor.
Qed.

Lemma run_spec env : run_facts env (run env).1 (run env).2.
Proof.
  destruct (main_cases env)
    as [(e & -> & He)|(name & d & w1 & r & w2 & Hin & Hd & _ & Hw1 & Hfs & Hb & ->)].
  { split; cbn; intros;
      try match goal with H : _ ∈ [] |- _ => mem_inv H end; by constructor. }
  destruct (rundir_body_spec env d w1 Hfs)
    as (r' & w2' & inner & E & Ht & Hcalls & Hsock & Hpipe & _ & Hnm & _ & Hroom).
  rewrite Hb in E. injection E as <- <-.
  rewrite Hw1 in Hcalls, Hnm. cbn in Hcalls, Hnm.
  pose proof (display_trace_calls _ _ _ _ Ht) as Hdc.
  destruct (2 <=? free_below (w_fds w2) (env_nofile env))%nat eqn:Hr; cbn [fst snd].
  - assert (Hall : w_calls (log (CRmtree d) (set_fs (fs_rmtree d) w2)) =
      CMkdir d :: inner ++ match r with
                           | Ok _ => [CPrint ("rundir: " +:+ d +:+ "/")]
                           | Raise _ => []
                           end ++ [CRmtree d]).
    { cbn. rewrite Hcalls. cbn. by rewrite <- !app_assoc. }
    split; rewrite Hall; cbn [w_fds w_fs log set_fs].
    + destruct r as [[]|e]; [by apply MT_returned|].
      cbn [app]. by apply MT_raised.
    + intros d' H. destruct r; mem_inv H; injection H as ->; eauto.
    + intros d' H. destruct r; mem_inv H; injection H as ->; apply fs_rmtree_gone.
    + intros f k p fd H. destruct r; mem_inv H; eauto.
    + intros flags rd wr H.
      assert (H' : CPipe2 flags rd wr ∈ inner) by (destruct r; mem_inv H; done).
      destruct (Hpipe _ _ _ H') as (? & ? & ? & Hcl). split_and!; try done.
      intros fd [Hc|Hc]; apply Hcl; [left|right]; destruct r; mem_inv Hc; done.
    + unfold no_manager_advertised. intros [N0 N1]%andb_prop.
      specialize (Hnm N0 N1). destruct r; forall_calls.
  - destruct Hroom as [Hroom|(e & -> & He)];
      [apply Nat.leb_gt in Hr; lia|].
    rewrite app_nil_r in Hcalls.
    assert (Hall : w_calls w2 = CMkdir d :: inner) by done.
    split; rewrite Hall.
    + by apply (MT_kept d e).
    + intros d' H. mem_inv H; injection H as ->; eauto.
    + intros d' H. mem_inv H.
    + intros f k p fd H. mem_inv H. eauto.
    + intros flags rd wr H.
      assert (H' : CPipe2 flags rd wr ∈ inner) by (mem_inv H; done).
      destruct (Hpipe _ _ _ H') as (? & ? & ? & Hcl). split_and!; try done.
      intros fd [Hc|Hc]; apply Hcl; [left|right]; mem_inv Hc; done.
    + unfold no_manager_advertised. intros [N0 N1]%andb_prop.
      specialize (Hnm N0 N1). forall_calls.
Qed.

Ltac norm_app := repeat first [ rewrite <- !app_assoc | progress cbn [app] ].

(** ** Which manager the handler leaves in [ext.manager] *)

Lemma last_bind_app l1 l2 :
  last_bind (l1 ++ l2) =
    match last_bind l2 with
    | Some b => Some b
    | None => last_bind l1
    end.
Proof.
  induction l1 as [|c l1 IH]; cbn [app last_bind].
  - by destruct (last_bind l2).
  - rewrite IH. by destruct (last_bind l2).
Qed.

Lemma last_bind_is_bind l b :
  last_bind l = Some b → ∃ m, bound_proxy b = Some m.
Proof.
  induction l as [|c l IH]; [done|]. cbn [last_bind].
  destruct (last_bind l) as [b'|]; [intros [= <-]; by apply IH|].
  destruct c; try done. intros [= <-]. by eexists.
Qed.

(** After a batch of events, [ext.manager] is the proxy of the last bind the
    handler made, or what it was when the handler made none; the handler
    binds exactly when an event advertises the manager. *)
Lemma deliver_all_binds env evs reg ext w :
  w_on_global w = Some (reg, ext) →
  ext < length (w_heap w) →
  ∃ w' scan,
    deliver_all env evs w = (Ok tt, w')
    ∧ w_calls w' = w_calls w ++ scan
    ∧ Forall scan_call scan
    ∧ Forall (handler_bind env) scan
    ∧ manager <$> (w_heap w' !! ext) =
        match last_bind scan ≫= bound_proxy with
        | Some m => Some (Some m)
        | None => manager <$> (w_heap w !! ext)
        end
    ∧ (last_bind scan = None ↔
       no_manager_batch env {| b_events := evs; b_result := 0 |} = true).
Proof.
  revert w. induction evs as [|ev evs IH]; intros w Hg Hlen.
  - exists w, []. rewrite app_nil_r. by split_and!.
  - destruct (deliver_handled env ev w) as (w1 & E1 & H1).
    assert (Hstep : ∃ scan1,
      w_calls w1 = w_calls w ++ scan1
      ∧ Forall scan_call scan1 ∧ Forall (handler_bind env) scan1
      ∧ manager <$> (w_heap w1 !! ext) =
          match last_bind scan1 ≫= bound_proxy with
          | Some m => Some (Some m)
          | None => manager <$> (w_heap w !! ext)
          end
      ∧ (last_bind scan1 = None ↔
         match ev with
         | EvGlobal _ interface _ =>
             negb (String.eqb interface (env_manager_name env))
         | EvGlobalRemove _ => true
         end = true)).
    { revert E1. unfold deliver. munfold. rewrite Hg.
      destruct ev as [id_ interface version|id_].
      - unfold registry_global_handler.
        destruct (String.eqb interface (env_manager_name env)) eqn:Eq.
        + apply String.eqb_eq in Eq. subst interface.
          unfold registry_bind, fresh_id, set_manager. munfold.
          intros [= <-]. eexists [_; _].
          cbn [w_calls w_heap log set_heap bump_id].
          split; [by rewrite <- app_assoc|].
          split; [by repeat constructor|].
          split; [by repeat constructor|].
          split; [by rewrite list_lookup_insert_eq|].
          by split.
        + intros [= <-]. exists []. rewrite app_nil_r. by split_and!.
      - intros [= <-]. exists []. rewrite app_nil_r. by split_and!. }
    destruct Hstep as (scan1 & C1 & S1 & B1 & M1 & N1).
    destruct (IH w1) as (w2 & scan2 & E2 & C2 & S2 & B2 & M2 & N2).
    { by rewrite (h_on_global _ _ H1). }
    { by rewrite (h_heap_len _ _ H1). }
    exists w2, (scan1 ++ scan2). split_and!.
    + cbn [deliver_all]. munfold. by rewrite E1.
    + by rewrite C2, C1, app_assoc.
    + by apply Forall_app.
    + by apply Forall_app.
    + rewrite M2, last_bind_app.
      destruct (last_bind scan2) as [b|] eqn:L2; cbn.
      * destruct (last_bind_is_bind _ _ L2) as [m ->]. done.
      * done.
    + rewrite last_bind_app. unfold no_manager_batch in *. cbn [b_events forallb] in *.
      rewrite andb_true_iff, <- N1, <- N2.
      destruct (last_bind scan2), (last_bind scan1); intuition congruence.
Qed.

(** One exchange with the compositor once the handler is installed. *)
Lemma poll_binds env w dfd reg ext :
  w_display w = Some dfd →
  w_on_global w = Some (reg, ext) →
  ext < length (w_heap w) →
  ∃ w' scan,
    poll env w = (Ok (b_result (env_server env (w_polls w))), w')
    ∧ handled (bump_polls w) w'
    ∧ w_calls w' = w_calls w ++ scan
    ∧ Forall scan_call scan
    ∧ Forall (handler_bind env) scan
    ∧ manager <$> (w_heap w' !! ext) =
        match last_bind scan ≫= bound_proxy with
        | Some m => Some (Some m)
        | None => manager <$> (w_heap w !! ext)
        end
    ∧ (last_bind scan = None ↔
       no_manager_batch env (env_server env (w_polls w)) = true)
    ∧ (no_manager_batch env (env_server env (w_polls w)) = true → scan = []).
Proof.
  intros Hd Hg Hlen. unfold poll. rewrite Hd. munfold.
  destruct (deliver_all_binds env (b_events (env_server env (w_polls w))) reg ext
              (bump_polls w) Hg Hlen) as (w' & scan & E & C & S & B & M & N).
  destruct (deliver_all_handled env (b_events (env_server env (w_polls w)))
              (bump_polls w)) as (w'' & E' & H).
  rewrite E in E'. injection E' as <-.
  exists w', scan. rewrite E. split_and!; try done.
  intros Hn. rewrite (deliver_all_no_manager _ _ _ Hn) in E.
  injection E as <-. cbn in C.
  rewrite <- (app_nil_r (w_calls w)) in C at 1. by apply app_inv_head in C.
Qed.

(** ** The outcome of the socket block *)

(** Lines 32 to 43 fail at the first step that fails, and otherwise end as
    the final round-trip decides; apart from the socket's own descriptor and
    the two pipe ends they leave the descriptor table alone. *)
Lemma socket_body_exact env d iid display ext lfd dfd e w :
  w_fds w !! lfd = Some {| fd_kind := FdSocket AF_UNIX SOCK_STREAM 0 None None;
                           fd_cloexec := true |} →
  w_fs w !! d = Some ∅ →
  w_display w = Some dfd →
  w_heap w !! ext = Some e →
  ∃ r w' calls,
    socket_body env d iid display ext {| sock_fd := lfd |} w = (r, w')
    ∧ w_calls w' = w_calls w ++ calls
    ∧ r = (if negb (env_bind_ok env) then Raise (OSError "bind")
           else if negb (env_listen_ok env) then Raise (OSError "listen")
           else if negb (env_pipe_ok env
                         && (2 <=? free_below (w_fds w) (env_nofile env))%nat)
           then Raise (OSError "pipe2")
           else match manager e with
                | None => Raise (AttributeError "create_listener")
                | Some _ =>
                    if (b_result (env_server env (w_polls w)) <? 0)%Z
                    then Raise (RuntimeError "Roundtrip failed")
                    else Ok tt
                end)
    ∧ w_fs w' = (if env_bind_ok env
                 then <[d := {[ "wayland-1" := NSocket ]}]> (w_fs w)
                 else w_fs w)
    ∧ (∀ fd, fd ≠ lfd →
         (∀ flags rd wr, CPipe2 flags rd wr ∈ calls → fd ≠ rd ∧ fd ≠ wr) →
         w_fds w' !! fd = w_fds w !! fd).
Proof.
  intros Hs Hfs Hd Hh.
  unfold socket_body. munfold. unfold sock_bind. cbn [sock_fd]. rewrite Hs.
  destruct (env_bind_ok env); cbn [negb].
  2:{ eexists _, _, []. split; [reflexivity|]. rewrite app_nil_r. by split_and!. }
  unfold fs_create.
  rewrite before_last_sep_wayland, Hfs, basename_wayland, lookup_empty.
  unfold sock_listen. cbn [sock_fd w_fds log set_fds set_fs].
  rewrite lookup_insert_eq.
  destruct (env_listen_ok env); cbn [negb].
  2:{ eexists _, _, [_]. split; [reflexivity|].
      cbn [w_calls w_fds w_fs log set_fds set_fs]. split_and!; try done.
      intros fd Hfd _. by rewrite lookup_insert_ne. }
  unfold pipe2, fds_left. munfold.
  cbn [w_fds log set_fds set_fs].
  rewrite !free_below_insert_used
    by (rewrite ?lookup_insert_eq, ?Hs; by eexists).
  destruct (env_pipe_ok env && _); cbn [negb].
  2:{ eexists _, _, [_; _]. split; [reflexivity|].
      cbn [w_calls w_fds w_fs log set_fds set_fs]. split_and!; try done.
      - by rewrite <- app_assoc.
      - intros fd Hfd _. by rewrite !lookup_insert_ne. }
  rewrite cloexec_flag. unfold open_fd. munfold.
  cbn [sock_fd w_fds w_fs w_heap w_display w_calls log set_fds set_fs].
  unfold get_manager. cbn [w_heap log set_fds set_fs]. rewrite Hh.
  unfold getattr_create_listener. munfold.
  destruct (manager e) as [m|] eqn:Hm.
  2:{ eexists _, _, [_; _; _]. split; [reflexivity|].
      cbn [w_calls w_fds w_fs log set_fds set_fs]. split_and!; try done.
      - by rewrite <- !app_assoc.
      - intros fd Hfd Hp.
        destruct (Hp _ _ _ (list_elem_of_further _ _ _
                    (list_elem_of_further _ _ _ (list_elem_of_here _ _)))).
        by rewrite !lookup_insert_ne. }
  unfold create_listener, fresh_id, set_sandbox_engine, set_app_id,
    set_instance_id, commit, destroy, roundtrip, fileno. munfold.
  cbn [sock_fd w_heap w_fds w_fs w_next_id w_display w_calls log set_fds set_fs
       bump_id snd].
  match goal with |- context [poll env ?w0] =>
    destruct (poll_spec env w0 dfd Hd) as (w' & -> & Hw' & _) end.
  destruct Hw' as [Hfs' Hfds' _ _ _ _ (scan & Hcalls & Hscan)].
  cbn in Hfs', Hfds', Hcalls.
  cbn [w_polls log set_fds set_fs bump_id].
  set (z := b_result _).
  eexists (if (z <? 0)%Z then Raise (RuntimeError "Roundtrip failed") else Ok tt),
    (log (CRoundtrip z) w'), _.
  split; [by destruct (z <? 0)%Z|].
  cbn [w_calls w_fds w_fs log]. rewrite Hcalls, Hfs', Hfds'.
  split; [by rewrite <- !app_assoc|]. split_and!; try done.
  - intros fd Hfd Hp.
    destruct (Hp _ _ _ (list_elem_of_further _ _ _
                (list_elem_of_further _ _ _ (list_elem_of_here _ _)))).
    by rewrite !lookup_insert_ne.
Qed.

(** ** The outcome of the directory block *)

Lemma last_bind_elem l b : last_bind l = Some b → b ∈ l.
Proof.
  induction l as [|c l IH]; [done|]. cbn [last_bind].
  destruct (last_bind l) as [b'|].
  - intros [= <-]. apply list_elem_of_further. by apply IH.
  - destruct c; try done. intros [= <-]. apply list_elem_of_here.
Qed.

Lemma before_create_scan l l' :
  Forall scan_call l → before_create (l ++ l') = l ++ before_create l'.
Proof.
  induction 1 as [|c l Hc _ IH]; [done|].
  cbn [app before_create]. rewrite IH. by destruct c.
Qed.

(** [ext.manager] after the two initial exchanges, read off the binds the
    handler made during them. *)
Lemma manager_after_scans (scan1 scan2 : list Call) (e : SecurityContextExt) env :
  Forall (handler_bind env) scan1 →
  Forall (handler_bind env) scan2 →
  Some (manager e) =
    match last_bind scan2 ≫= bound_proxy with
    | Some m => Some (Some m)
    | None => match last_bind scan1 ≫= bound_proxy with
              | Some m => Some (Some m)
              | None => Some None
              end
    end →
  match manager e with
  | Some m =>
      ∃ b, match last_bind scan2 with
           | Some b => Some b
           | None => last_bind scan1
           end = Some b
           ∧ bound_proxy b = Some m ∧ handler_bind env b
  | None => last_bind scan1 = None ∧ last_bind scan2 = None
  end.
Proof.
  intros B1 B2.
  destruct (last_bind scan2) as [b2|] eqn:L2; cbn.
  - destruct (last_bind_is_bind _ _ L2) as [m Hm]. rewrite Hm.
    intros [= ->]. exists b2. split_and!; try done.
    eapply (proj1 (Forall_forall _ _) B2). by apply last_bind_elem.
  - destruct (last_bind scan1) as [b1|] eqn:L1; cbn.
    + destruct (last_bind_is_bind _ _ L1) as [m Hm]. rewrite Hm.
      intros [= ->]. exists b1. split_and!; try done.
      eapply (proj1 (Forall_forall _ _) B1). by apply last_bind_elem.
    + by intros [= ->].
Qed.

Lemma last_bind_no_scan_mid (A B C scan1 scan2 : list Call) :
  last_bind A = None → last_bind B = None → last_bind C = None →
  last_bind (A ++ scan1 ++ B ++ scan2 ++ C) =
    match last_bind scan2 with
    | Some b => Some b
    | None => last_bind scan1
    end.
Proof.
  intros HA HB HC. rewrite !last_bind_app, HA, HB, HC.
  by destruct (last_bind scan2), (last_bind scan1).
Qed.

(** Lines 24 to 44 in a fresh directory: the result is decided by the
    first step that fails, where a step that opens descriptors also fails
    when too few are left; the file system changes inside the directory
    only; apart from the pipe ends, the descriptor table is as before; and a
    context is created on the proxy of the last bind. *)
Lemma rundir_body_exact env d w :
  w_fs w !! d = Some ∅ →
  ∃ r w' inner,
    rundir_body env d w = (r, w')
    ∧ w_calls w' =
        w_calls w ++ inner ++
          match r with
          | Ok _ => [CPrint ("rundir: " +:+ d +:+ "/")]
          | Raise _ => []
          end
    ∧ r = (if negb (env_connect_ok env
                    && (1 <=? free_below (w_fds w) (env_nofile env))%nat)
           then Raise ConnectError
           else if (b_result (env_server env (w_polls w)) =? -1)%Z
           then Raise (RuntimeError
                         ("Failed with error: " +:+ pretty (env_errno env)))
           else if negb (env_socket_ok env
                         && (2 <=? free_below (w_fds w) (env_nofile env))%nat)
           then Raise (OSError "socket")
           else if negb (env_bind_ok env) then Raise (OSError "bind")
           else if negb (env_listen_ok env) then Raise (OSError "listen")
           else if negb (env_pipe_ok env
                         && (4 <=? free_below (w_fds w) (env_nofile env))%nat)
           then Raise (OSError "pipe2")
           else if no_manager_batch env (env_server env (w_polls w))
                   && no_manager_batch env (env_server env (S (w_polls w)))
           then Raise (AttributeError "create_listener")
           else if (b_result (env_server env (S (S (w_polls w)))) <? 0)%Z
           then Raise (RuntimeError "Roundtrip failed")
           else Ok tt)
    ∧ (∃ T, w_fs w' = <[d := T]> (w_fs w)
            ∧ ((2 <=? free_below (w_fds w) (env_nofile env))%nat = false → T = ∅))
    ∧ (∀ fd, (∀ flags rd wr, CPipe2 flags rd wr ∈ inner → fd ≠ rd ∧ fd ≠ wr) →
         w_fds w' !! fd = w_fds w !! fd)
    ∧ (∀ m l c ld cd ctx, CCreateListener m l c ld cd ctx ∈ inner →
         ∃ b, last_bind (before_create inner) = Some b
              ∧ bound_proxy b = Some m ∧ handler_bind env b)
    ∧ (2 <=? free_below (w_fds w') (env_nofile env))%nat
      = (2 <=? free_below (w_fds w) (env_nofile env))%nat
    ∧ (no_manager_batch env (env_server env (w_polls w)) = true →
       no_manager_batch env (env_server env (S (w_polls w))) = true →
       r = Raise (AttributeError "create_listener") →
       ∃ dfd reg ext lfd rd wr,
         inner =
           [CConnect dfd; CGetRegistry reg; CSetDispatcher reg "global" ext;
            CDispatch (b_result (env_server env (w_polls w)));
            CRoundtrip (b_result (env_server env (S (w_polls w))));
            CSocket AF_UNIX SOCK_STREAM 0 lfd;
            CBind lfd (d +:+ "/wayland-1");
            CListen lfd DefaultBacklog;
            CPipe2 O_CLOEXEC rd wr;
            CClose lfd;
            CDisconnect dfd]).
Proof.
  intros Hfs.
  assert (Hid : w_fs w = <[d := ∅]> (w_fs w)) by (symmetry; by apply insert_id).
  unfold rundir_body, with_, Display_new. cbn [cm_enter cm_exit Display_cm].
  munfold. unfold connect, fds_left. munfold.
  set (n := free_below (w_fds w) (env_nofile env)).
  destruct (env_connect_ok env && (1 <=? n)%nat) eqn:Hconn; cbn [negb].
  2:{ munfold. eexists _, _, []. split; [reflexivity|].
      rewrite !app_nil_r. split_and!; try done.
      - by exists ∅.
      - intros; exfalso; eapply not_elem_of_nil; eauto. }
  apply andb_prop in Hconn as [_ Hroom1]. apply Nat.leb_le in Hroom1.
  pose proof (lowest_free_below_limit _ _ Hroom1) as Hdl.
  unfold display_body, get_registry, SecurityContextExt_new, set_dispatcher_global,
    dispatch, roundtrip, open_fd, fresh_id. munfold.
  cbn [w_fds w_fs w_heap w_display w_next_id w_calls w_polls w_on_global
       log set_fds set_fs set_heap set_display set_on_global bump_id].
  set (dfd := lowest_free (w_fds w)) in *.
  set (ext := length (w_heap w)).
  set (reg := {| reg_id := w_next_id w |}).
  assert (Hdfd : w_fds w !! dfd = None) by apply lowest_free_fresh.
  (* dispatch *)
  match goal with |- context [poll env ?w0] =>
    destruct (poll_binds env w0 dfd reg ext eq_refl eq_refl)
      as (w1 & scan1 & -> & H1 & Hc1 & Hscan1 & Hb1 & Hm1 & Hn1 & Hq1)
  end.
  { cbn. rewrite length_app. cbn. subst ext. lia. }
  cbv beta iota.
  destruct H1 as [Hfs1 Hfds1 Hdisp1 Hg1 Hpolls1 Hlen1 _].
  cbn in Hfs1, Hfds1, Hdisp1, Hg1, Hpolls1, Hlen1, Hc1, Hm1, Hn1, Hq1.
  cbn [w_polls log set_on_global set_heap bump_id set_display set_fds] in *.
  set (z1 := b_result (env_server env (w_polls w))) in *.
  destruct (z1 =? -1)%Z eqn:Hz1.
  { unfold disconnect. munfold. rewrite Hdisp1. munfold.
    eexists _, _, _. split; [reflexivity|].
    cbn [w_calls w_fds w_fs log set_fds set_display]. rewrite Hc1.
    split.
    { instantiate (1 := [CConnect dfd; CGetRegistry reg; CSetDispatcher reg "global" ext]
                        ++ scan1 ++ [CDisconnect dfd]).
      by norm_app. }
    assert (Hsame : ∀ fd, delete dfd (w_fds w1) !! fd = w_fds w !! fd).
    { intros fd. rewrite Hfds1.
      destruct (decide (fd = dfd)) as [->|]; [by rewrite lookup_delete_eq|].
      by rewrite lookup_delete_ne, lookup_insert_ne. }
    split_and!; try done.
    - exists ∅. by rewrite Hfs1.
    - intros m l c ld cd ctx H. clear Hb1. mem_inv H.
    - f_equal. apply free_below_ext. intros i _. by rewrite Hsame. }
  (* roundtrip *)
  munfold.
  match goal with |- context [poll env ?w0] =>
    destruct (poll_binds env w0 dfd reg ext Hdisp1 Hg1)
      as (w2 & scan2 & -> & H2 & Hc2 & Hscan2 & Hb2 & Hm2 & Hn2 & Hq2)
  end.
  { cbn. rewrite Hlen1, length_app. cbn. subst ext. lia. }
  cbv beta iota.
  destruct H2 as [Hfs2 Hfds2 Hdisp2 _ Hpolls2 Hlen2 _].
  cbn in Hfs2, Hfds2, Hdisp2, Hpolls2, Hlen2, Hc2, Hm2, Hn2, Hq2.
  cbn [w_polls log set_on_global set_heap bump_id set_display set_fds] in *.
  set (z2 := b_result (env_server env (w_polls w1))) in *.
  set (iid := Py.removeprefix (Py.basename d) "isol-").
  rewrite Hpolls1 in Hn2, Hq2.
  assert (Hz2 : z2 = b_result (env_server env (S (w_polls w))))
    by (subst z2; by rewrite Hpolls1).
  assert (Hpre : w_calls w2 =
    w_calls w ++ [CConnect dfd; CGetRegistry reg; CSetDispatcher reg "global" ext]
      ++ scan1 ++ [CDispatch z1] ++ scan2).
  { rewrite Hc2, Hc1. by rewrite <- !app_assoc. }
  assert (Hfds : w_fds w2 = <[dfd := {| fd_kind := FdDisplay; fd_cloexec := true |}]> (w_fds w))
    by congruence.
  assert (Hdisp : w_display w2 = Some dfd) by congruence.
  assert (Hfsd : w_fs w2 !! d = Some ∅) by congruence.
  assert (Hfs0 : w_fs w2 = w_fs w) by congruence.
  assert (Hp2 : w_polls w2 = S (S (w_polls w))) by congruence.
  rewrite Hm1 in Hm2. subst ext.
  rewrite list_lookup_middle in Hm2 by done. cbn [fmap option_fmap option_map manager] in Hm2.
  set (ext := length (w_heap w)) in *.
  clear Hc1 Hc2 Hfds1 Hfds2 Hdisp1 Hdisp2 Hfs1 Hfs2 Hm1 Hpolls1 Hpolls2.
  (* socket.socket *)
  unfold with_, socket_new, fds_left. cbn [cm_enter cm_exit socket_cm]. munfold.
  cbn [w_fds log].
  assert (Hcount1 : n = S (free_below (w_fds w2) (env_nofile env))).
  { rewrite Hfds. by apply free_below_insert. }
  replace (1 <=? free_below (w_fds w2) (env_nofile env))%nat with (2 <=? n)%nat
    by (by rewrite Hcount1).
  assert (Hsame : ∀ fd, delete dfd (w_fds w2) !! fd = w_fds w !! fd).
  { intros fd. rewrite Hfds.
    destruct (decide (fd = dfd)) as [->|]; [by rewrite lookup_delete_eq|].
    by rewrite lookup_delete_ne, lookup_insert_ne. }
  destruct (env_socket_ok env && (2 <=? n)%nat) eqn:Hsock; cbn [negb].
  2:{ unfold disconnect. munfold. cbn [w_display log]. rewrite Hdisp. munfold.
      eexists _, _, _. split; [reflexivity|].
      cbn [w_calls w_fds w_fs log set_fds set_display]. rewrite Hpre.
      split.
      { instantiate (1 := [CConnect dfd; CGetRegistry reg; CSetDispatcher reg "global" ext]
                          ++ scan1 ++ [CDispatch z1] ++ scan2
                          ++ [CRoundtrip z2; CDisconnect dfd]).
        by norm_app. }
      split_and!; try done.
      - exists ∅. by rewrite Hfs0.
      - intros m l c ld cd ctx H. clear Hb1 Hb2. mem_inv H.
      - f_equal. apply free_below_ext. intros i _. by rewrite Hsame. }
  apply andb_prop in Hsock as [_ Hroom2]. apply Nat.leb_le in Hroom2.
  assert (Hll : lowest_free (w_fds w2) < env_nofile env).
  { apply lowest_free_below_limit. lia. }
  unfold open_fd. munfold.
  cbn [w_fds w_fs w_heap w_display w_calls log set_fds].
  set (lfd := lowest_free (w_fds w2)) in *.
  assert (Hld : lfd ≠ dfd).
  { apply lowest_free_ne. rewrite Hfds, lookup_insert_eq. eauto. }
  assert (Hlfd2 : w_fds w2 !! lfd = None) by apply lowest_free_fresh.
  assert (Hlfd : w_fds w !! lfd = None).
  { by rewrite Hfds, lookup_insert_ne in Hlfd2. }
  destruct (lookup_lt_is_Some_2 (w_heap w2) ext) as [e He].
  { rewrite Hlen2, Hlen1, length_app. cbn. subst ext. lia. }
  rewrite He in Hm2. cbn [fmap option_fmap option_map] in Hm2.
  pose proof (manager_after_scans scan1 scan2 e env Hb1 Hb2 Hm2) as Hmgr2.
  clear Hb1 Hb2.
  match goal with |- context [socket_body env d iid ?c ext ?s ?w0] =>
    destruct (socket_body_exact env d iid c ext lfd dfd e w0)
      as (r & w3 & body & Eb & Hcalls3 & Hr & Hfs3 & Hframe);
    [cbn; by rewrite lookup_insert_eq|done|done|done|];
    destruct (socket_body_spec env d iid c ext lfd dfd e w0)
      as (r' & w3' & body' & Eb' & Hbody & Hcalls3' & Hdisp3 & Hmono & _ & _ & Hmgr & _);
    [cbn; by rewrite lookup_insert_eq|done|done|done|]
  end.
  rewrite Eb in Eb'. injection Eb' as <- <-.
  rewrite Hcalls3 in Hcalls3'. apply app_inv_head in Hcalls3'. subst body'.
  rewrite Eb.
  cbn [w_fds w_fs w_heap w_display w_calls w_polls log set_fds] in *.
  assert (Hcount2 : free_below (w_fds w2) (env_nofile env) =
    S (free_below (<[lfd := {| fd_kind := FdSocket AF_UNIX SOCK_STREAM 0 None None;
                               fd_cloexec := true |}]> (w_fds w2)) (env_nofile env)))
    by (by apply free_below_insert).
  replace (2 <=? free_below _ (env_nofile env))%nat with (4 <=? n)%nat in Hr
    by (by rewrite Hcount1, Hcount2).
  unfold sock_close, disconnect. munfold. cbn [sock_fd].
  destruct (Hmono lfd) as [x Hx]; [rewrite lookup_insert_eq; eauto|].
  rewrite Hx. munfold.
  cbn [w_fds w_fs w_heap w_display w_calls log set_fds].
  rewrite Hdisp3, Hdisp. munfold.
  pose proof (body_trace_calls _ _ _ _ _ Hbody) as Hbc.
  set (W := log (CDisconnect dfd)
              (set_display None
                 (set_fds (delete dfd)
                    (log (CClose lfd) (set_fds (delete lfd) w3))))).
  exists r, (match r with
             | Ok _ => log (CPrint ("rundir: " +:+ d +:+ "/")) W
             | Raise _ => W
             end),
    ([CConnect dfd; CGetRegistry reg; CSetDispatcher reg "global" ext]
     ++ scan1 ++ [CDispatch z1] ++ scan2 ++ [CRoundtrip z2]
     ++ (CSocket AF_UNIX SOCK_STREAM 0 lfd :: body ++ [CClose lfd])
     ++ [CDisconnect dfd]).
  split; [by destruct r as [[]|]|].
  assert (HWfds : w_fds (match r with
                         | Ok _ => log (CPrint ("rundir: " +:+ d +:+ "/")) W
                         | Raise _ => W
                         end) = delete dfd (delete lfd (w_fds w3)))
    by (by destruct r).
  assert (HWfs : w_fs (match r with
                       | Ok _ => log (CPrint ("rundir: " +:+ d +:+ "/")) W
                       | Raise _ => W
                       end) = w_fs w3)
    by (by destruct r).
  rewrite HWfds, HWfs.
  assert (Hn2' : (2 <=? n)%nat = true) by (apply Nat.leb_le; lia).
  split.
  { destruct r; subst W; cbn [w_calls log set_display set_fds];
      rewrite Hcalls3, Hpre, <- !app_assoc; cbn [app]; by rewrite <- ?app_assoc. }
  split_and!.
  - rewrite Hr, Hp2.
    destruct (env_bind_ok env), (env_listen_ok env),
      (env_pipe_ok env && (4 <=? n)%nat); cbn [negb]; try done.
    destruct (manager e) as [m|].
    + destruct Hmgr2 as (b & Hb & _).
      destruct (no_manager_batch env (env_server env (w_polls w))) eqn:N0;
        destruct (no_manager_batch env (env_server env (S (w_polls w)))) eqn:N1;
        cbn [andb]; try done.
      exfalso. rewrite (proj2 Hn1 eq_refl), (proj2 Hn2 eq_refl) in Hb. done.
    + destruct Hmgr2 as (L1 & L2). apply Hn1 in L1. apply Hn2 in L2.
      by rewrite L1, L2.
  - rewrite Hfs3, Hfs0. destruct (env_bind_ok env).
    + eexists. split; [done|]. by rewrite Hn2'.
    + exists ∅. split; [done|]. by rewrite Hn2'.
  - intros fd Hp.
    destruct (decide (fd = dfd)) as [->|]; [by rewrite lookup_delete_eq|].
    rewrite lookup_delete_ne by done.
    destruct (decide (fd = lfd)) as [->|]; [by rewrite lookup_delete_eq|].
    rewrite lookup_delete_ne by done.
    rewrite Hframe.
    + by rewrite lookup_insert_ne, Hfds, lookup_insert_ne.
    + done.
    + intros flags rd wr Hin. apply (Hp flags). clear -Hin. set_solver.
  - intros m l c ld cd ctx H. mem_inv H.
    pose proof (Hmgr _ _ _ _ _ _ H) as Hm. rewrite Hm in Hmgr2.
    destruct Hmgr2 as (b & Hb & Hbp & Hbh). exists b. split_and!; try done.
    rewrite <- Hb. clear Hb Hbp Hbh.
    destruct Hbody; mem_inv H.
    cbn [app before_create]. rewrite before_create_scan by done.
    cbn [app before_create]. rewrite before_create_scan by done.
    cbn [app before_create].
    change (CConnect dfd :: CGetRegistry reg :: CSetDispatcher reg "global" ext
              :: scan1 ++ CDispatch z1 :: scan2
              ++ [CRoundtrip z2; CSocket AF_UNIX SOCK_STREAM 0 lfd;
                  CBind lfd (d +:+ "/wayland-1"); CListen lfd DefaultBacklog;
                  CPipe2 O_CLOEXEC rd wr])
      with ([CConnect dfd; CGetRegistry reg; CSetDispatcher reg "global" ext]
              ++ scan1 ++ [CDispatch z1] ++ scan2
              ++ [CRoundtrip z2; CSocket AF_UNIX SOCK_STREAM 0 lfd;
                  CBind lfd (d +:+ "/wayland-1"); CListen lfd DefaultBacklog;
                  CPipe2 O_CLOEXEC rd wr]).
    by apply last_bind_no_scan_mid.
  - rewrite Hn2'. apply Nat.leb_le.
    apply (free_below_two _ _ lfd dfd); try done.
    + rewrite lookup_delete_ne by done. apply lookup_delete_eq.
    + apply lookup_delete_eq.
  - intros N0 N1 ->. rewrite (Hq1 N0), (Hq2 N1), <- Hz2.
    exists dfd, reg, ext, lfd.
    inversion Hbody as [| | |rd wr|rd wr m ctx scan z Hscan Hres]; subst.
    + by exists rd, wr.
    + by destruct (z <? 0)%Z.
Qed.

(** ** What the directory block does to the file system *)

Lemma before_last_sep_shorter (p q : string) :
  Py.before_last_sep p = Some q → (String.length q < String.length p)%nat.
Proof.
  revert q. induction p as [|c p IH]; intros q; [done|].
  cbn [Py.before_last_sep String.length].
  destruct (Py.before_last_sep p) as [s|].
  - intros [= <-]. cbn [String.length]. specialize (IH s eq_refl). lia.
  - destruct (bool_decide (c = "/"%char)); [|done]. intros [= <-]. cbn. lia.
Qed.

Lemma prefix_longer (a b : string) :
  String.prefix a b = true → (String.length a ≤ String.length b)%nat.
Proof.
  revert b. induction a as [|c a IH]; intros b; [cbn; lia|].
  destruct b as [|c' b]; [done|]. cbn [String.prefix String.length].
  destruct (Ascii.ascii_dec c c'); [|done]. intros H%IH. lia.
Qed.

Lemma length_append (a b : string) :
  String.length (a +:+ b) = (String.length a + String.length b)%nat.
Proof. induction a as [|c a IH]; [done|]. simpl. by rewrite IH. Qed.

(** The directory an entry is created in does not lie at or below it. *)
Lemma parent_not_under (d p : string) :
  Py.before_last_sep d = Some p → under d p = false.
Proof.
  intros H%before_last_sep_shorter. unfold under.
  rewrite bool_decide_eq_false_2 by (intros ->; lia). cbn [orb].
  destruct (String.prefix (d +:+ "/") p) eqn:E; [|done].
  apply prefix_longer in E. rewrite length_append in E. cbn in E. lia.
Qed.

(** Removing a directory that was created in an existing parent and under
    which nothing else existed gives back the file system from before,
    whatever was put into the directory meanwhile. *)
Lemma fs_rmtree_restores (d parent : string) (tbl T : gmap string Node)
    (fs : gmap string (gmap string Node)) :
  Py.before_last_sep d = Some parent →
  fs !! parent = Some tbl →
  tbl !! Py.basename d = None →
  (∀ k, under d k = true → fs !! k = None) →
  fs_rmtree d (<[d := T]> (<[parent := <[Py.basename d := NDir]> tbl]> fs)) = fs.
Proof.
  intros Hp Hfs Htbl Hnone. unfold fs_rmtree. rewrite Hp.
  pose proof (parent_not_under _ _ Hp) as Hpu.
  assert (Hdd : under d d = true).
  { unfold under. by rewrite bool_decide_eq_true_2. }
  assert (Hne : d ≠ parent) by (intros E; rewrite <- E, Hdd in Hpu; done).
  apply map_eq. intros k. rewrite lookup_alter.
  destruct (decide (parent = k)) as [<-|Hk].
  - rewrite map_lookup_filter, lookup_insert_ne, lookup_insert_eq by done.
    cbn. rewrite option_guard_True by done. cbn.
    by rewrite Hfs, delete_insert_id.
  - rewrite map_lookup_filter.
    destruct (under d k) eqn:Hu.
    + rewrite (Hnone k Hu).
      destruct (_ !! k); [|done]. cbn. by rewrite option_guard_False by (cbn; congruence).
    + assert (d ≠ k) by (intros ->; congruence).
      rewrite !lookup_insert_ne by done.
      destruct (fs !! k); [|done]. cbn. by rewrite option_guard_True.
Qed.

(** [mkdtemp], when it succeeds, adds one entry to an existing directory and
    the new, empty directory, and nothing else. *)
Lemma mkdtemp_exact env dir pre names w d w' :
  mkdtemp env dir pre names w = (Ok d, w') →
  ∃ parent tbl,
    Py.before_last_sep d = Some parent
    ∧ w_fs w !! parent = Some tbl
    ∧ tbl !! Py.basename d = None
    ∧ w' = log (CMkdir d)
             (set_fs (λ _, <[d := ∅]>
                             (<[parent := <[Py.basename d := NDir]> tbl]> (w_fs w))) w).
Proof.
  induction names as [|name names IH]; cbn [mkdtemp]; [done|].
  unfold os_mkdir, fs_create. munfold.
  generalize (Py.join dir (pre +:+ name)). intros file.
  destruct (Py.before_last_sep file) as [parent|] eqn:Hp; cbv beta iota; [|done].
  destruct (w_fs w !! parent) as [tbl|] eqn:Hfs; cbv beta iota.
  2:{ by destruct (blocked_by_file _ _ _). }
  destruct (tbl !! Py.basename file) eqn:Ht; cbv beta iota; [exact IH|].
  destruct (env_may_create env file); cbn [negb]; [|done].
  destruct (env_mkdir_ok env); cbn [negb]; [|done].
  intros [= <- <-]. by exists parent, tbl.
Qed.

(** ** The whole run, exactly *)

Lemma run_exact env :
  (∃ e, mkdtemp env (env_dir env) "isol-" (env_names env) (initial_world env)
          = (Raise e, initial_world env)
        ∧ run env = (Raise e, initial_world env) ∧ file_error e)
  ∨ (∃ d w1 parent tbl inner T,
       mkdtemp env (env_dir env) "isol-" (env_names env) (initial_world env)
         = (Ok d, w1)
       ∧ Py.before_last_sep d = Some parent
       ∧ env_fs env !! parent = Some tbl
       ∧ tbl !! Py.basename d = None
       ∧ (run env).1 =
           (if (2 <=? free_at_start env)%nat then first_failure env
            else Raise (OSError "rmtree"))
       ∧ w_calls (run env).2 =
           CMkdir d :: inner ++
             (if (2 <=? free_at_start env)%nat
              then match first_failure env with
                   | Ok _ => [CPrint ("rundir: " +:+ d +:+ "/")]
                   | Raise _ => []
                   end ++ [CRmtree d]
              else [])
       ∧ w_fs (run env).2 =
           (if (2 <=? free_at_start env)%nat
            then fs_rmtree d
                   (<[d := T]> (<[parent := <[Py.basename d := NDir]> tbl]> (env_fs env)))
            else <[d := ∅]> (<[parent := <[Py.basename d := NDir]> tbl]> (env_fs env)))
       ∧ (∀ fd, (∀ flags rd wr, CPipe2 flags rd wr ∈ inner → fd ≠ rd ∧ fd ≠ wr) →
            w_fds (run env).2 !! fd = env_fds env !! fd)
       ∧ (∀ m l c ld cd ctx, CCreateListener m l c ld cd ctx ∈ inner →
            ∃ b, last_bind (before_create inner) = Some b
                 ∧ bound_proxy b = Some m ∧ handler_bind env b)
       ∧ (no_manager_advertised env = true →
          first_failure env = Raise (AttributeError "create_listener") →
          ∃ dfd reg ext lfd rd wr,
            inner =
              [CConnect dfd; CGetRegistry reg; CSetDispatcher reg "global" ext;
               CDispatch (b_result (env_server env 0));
               CRoundtrip (b_result (env_server env 1));
               CSocket AF_UNIX SOCK_STREAM 0 lfd;
               CBind lfd (d +:+ "/wayland-1");
               CListen lfd DefaultBacklog;
               CPipe2 O_CLOEXEC rd wr;
               CClose lfd;
               CDisconnect dfd])).
Proof.
  destruct (mkdtemp_spec env (env_dir env) "isol-" (env_names env) (initial_world env))
    as [(e & Em & He)|(name & d & w1 & Em & _ & _ & _ & Hfs)].
  { left. exists e. split_and!; try done.
    unfold run, main, with_, TemporaryDirectory_new, xdg_runtime_dir. munfold.
    by rewrite Em. }
  right.
  destruct (mkdtemp_exact _ _ _ _ _ _ _ Em) as (parent & tbl & Hp & Hpar & Htbl & Hw1).
  destruct (rundir_body_exact env d w1 Hfs)
    as (r & w2 & inner & Eb & Hcalls & Hr & (T & Hfs2 & HT) & Hfds & Hmgr & Hroom & Hq).
  destruct (rundir_body_spec env d w1 Hfs)
    as (r' & w2' & inner' & Eb' & _ & _ & _ & _ & _ & _ & [T' HT'] & _).
  rewrite Eb in Eb'. injection Eb' as <- <-.
  assert (E : run env =
    if (2 <=? free_below (w_fds w2) (env_nofile env))%nat
    then (r, log (CRmtree d) (set_fs (fs_rmtree d) w2))
    else (Raise (OSError "rmtree"), w2)).
  { unfold run, main, with_, TemporaryDirectory_new, xdg_runtime_dir. munfold.
    rewrite Em. cbn [cm_enter cm_exit TemporaryDirectory_cm td_name]. munfold.
    rewrite Eb. unfold rmtree, fds_left. munfold. rewrite HT'.
    by destruct (2 <=? free_below (w_fds w2) (env_nofile env))%nat. }
  rewrite Hw1 in Hcalls, Hr, Hfs2, HT, Hfds, Hroom, Hq.
  cbn [w_calls w_fs w_fds w_polls log set_fs initial_world] in Hcalls, Hr, Hfs2, HT,
    Hfds, Hroom, Hq.
  fold (free_at_start env) in Hr, HT, Hroom.
  fold (no_manager_advertised env) in Hr.
  fold (first_failure env) in Hr.
  rewrite insert_insert_eq in Hfs2.
  rewrite E, Hroom.
  exists d, w1, parent, tbl, inner,
    (if (2 <=? free_at_start env)%nat then T else ∅).
  destruct (2 <=? free_at_start env)%nat eqn:Hfree;
    cbn [fst snd w_calls w_fs w_fds log set_fs].
  - split_and!; try done.
    + rewrite Hcalls, Hr. cbn [app]. by rewrite <- !app_assoc.
    + by rewrite Hfs2.
    + intros Hn Hf. apply Hq; [| |congruence];
        unfold no_manager_advertised in Hn; apply andb_prop in Hn; apply Hn.
  - split_and!; try done.
    + rewrite Hcalls. f_equal.
      assert (Hraise : ∃ e, first_failure env = Raise e).
      { unfold first_failure.
        rewrite (proj2 (Nat.leb_gt 2 (free_at_start env))) by (by apply Nat.leb_gt).
        rewrite andb_false_r. cbn [negb].
        destruct (negb _); [by eexists|].
        destruct (_ =? _)%Z; by eexists. }
      destruct Hraise as [e He]. rewrite Hr, He. by rewrite app_nil_r.
    + rewrite Hfs2. by rewrite (HT eq_refl).
    + intros Hn Hf. apply Hq; [| |congruence];
        unfold no_manager_advertised in Hn; apply andb_prop in Hn; apply Hn.
Qed.

(** * The claims *)

(** Case analysis of a run along the nesting of its blocks. *)
Ltac inv_trace :=
  repeat match goal with
         | H : main_trace _ _ |- _ => inversion H; clear H; subst
         | H : display_trace _ _ _ _ |- _ => inversion H; clear H; subst
         | H : socket_trace _ _ _ _ |- _ => inversion H; clear H; subst
         | H : body_trace _ _ _ _ _ |- _ => inversion H; clear H; subst
         | H : early_trace _ _ |- _ => inversion H; clear H; subst
         end.

(** The log of a run, with its shape. *)
Lemma run_trace env : main_trace (run env).1 (w_calls (run env).2).
Proof. apply run_spec. Qed.

(** C9: the sandbox engine name and the app id set on the security context
    are the constants [io.r5t] and [sandbox.devenv] in every run, whatever
    the environment; the instance id differs between runs. *)
Theorem C9_engine_and_app_id_are_constants :
  (∀ env ctx s,
     (CSetSandboxEngine ctx s ∈ w_calls (run env).2 → s = "io.r5t")
     ∧ (CSetAppId ctx s ∈ w_calls (run env).2 → s = "sandbox.devenv"))
  ∧ (∃ ctx1 ctx2 s1 s2,
       CSetInstanceId ctx1 s1 ∈ w_calls (run env_ok).2
       ∧ CSetInstanceId ctx2 s2 ∈ w_calls (run env_other).2
       ∧ s1 ≠ s2).
Proof.
  split.
  - intros env ctx s. pose proof (run_trace env) as Ht.
    remember (w_calls (run env).2) as calls eqn:Ec.
    remember (run env).1 as r eqn:Er. clear Ec Er.
    split; intros H; inv_trace; mem_inv H; by injection H as _ ->.
  - exists {| ctx_id := 4 |}, {| ctx_id := 4 |}, "k3x_9q2a", "p0_tm4wz".
    split_and!; [vm_compute; set_solver..|done].
Qed.

(** A run that creates a security context has this log. *)
Lemma created_shape r calls m l c ld cd ctx :
  main_trace r calls →
  CCreateListener m l c ld cd ctx ∈ calls →
  ∃ d dfd reg ext scan1 z1 scan2 z2 rd scan z,
    calls =
      (CMkdir d :: [CConnect dfd; CGetRegistry reg; CSetDispatcher reg "global" ext]
         ++ scan1 ++ [CDispatch z1] ++ scan2
         ++ [CRoundtrip z2; CSocket AF_UNIX SOCK_STREAM 0 l;
             CBind l (d +:+ "/wayland-1"); CListen l DefaultBacklog;
             CPipe2 O_CLOEXEC rd c])
      ++ [CCreateListener m l c ld cd ctx;
          CSetSandboxEngine ctx "io.r5t";
          CSetAppId ctx "sandbox.devenv";
          CSetInstanceId ctx (Py.removeprefix (Py.basename d) "isol-");
          CCommit ctx;
          CDestroy ctx]
      ++ scan ++ [CRoundtrip z; CClose l; CDisconnect dfd]
      ++ match r with
         | Ok _ => [CPrint ("rundir: " +:+ d +:+ "/"); CRmtree d]
         | Raise _ => [CRmtree d]
         end
    ∧ Forall scan_call scan1 ∧ Forall scan_call scan2 ∧ Forall scan_call scan
    ∧ ld = Some (listening_desc (d +:+ "/wayland-1"))
    ∧ cd = Some (pipe_desc FdPipeWrite)
    ∧ r = if (z <? 0)%Z then Raise (RuntimeError "Roundtrip failed") else Ok tt.
Proof.
  intros Ht H. inv_trace; mem_inv H; injection H as -> -> -> -> -> ->.
  all: exists d, dfd, reg, ext, scan1, z1, scan2, z2, rd, scan, z.
  all: split_and!; try done; try (by norm_app).
  by destruct (z <? 0)%Z.
Qed.

Lemma commits_on_app ctx l1 l2 :
  commits_on ctx (l1 ++ l2) = commits_on ctx l1 + commits_on ctx l2.
Proof. unfold commits_on. by rewrite List.filter_app, length_app. Qed.

Lemma commits_on_no_context ctx l :
  Forall (λ c, context_call c = false) l → commits_on ctx l = 0.
Proof.
  unfold commits_on. induction 1 as [|c l Hc _ IH]; [done|].
  cbn [List.filter]. destruct c; try done; discriminate Hc.
Qed.

(** C4: in every run that creates a security context, the calls on that
    context are, in this order and with nothing else on a context before or
    after: the three attribute setters, [commit], [destroy]; so [commit] is
    called exactly once, after all three attributes were set and before the
    handle is destroyed. *)
Theorem C4_commit_once_between_attributes_and_destroy env m l c ld cd ctx :
  CCreateListener m l c ld cd ctx ∈ w_calls (run env).2 →
  ∃ pre post engine app_id instance_id,
    w_calls (run env).2 =
      pre ++ [CCreateListener m l c ld cd ctx;
              CSetSandboxEngine ctx engine;
              CSetAppId ctx app_id;
              CSetInstanceId ctx instance_id;
              CCommit ctx;
              CDestroy ctx] ++ post
    ∧ Forall (λ x, context_call x = false) pre
    ∧ Forall (λ x, context_call x = false) post
    ∧ commits_on ctx (w_calls (run env).2) = 1.
Proof.
  intros H.
  destruct (created_shape _ _ _ _ _ _ _ _ (run_trace env) H)
    as (d & dfd & reg & ext & scan1 & z1 & scan2 & z2 & rd & scan & z
        & E & H1 & H2 & H3 & _).
  eexists _, _, _, _, _. split; [exact E|].
  assert (Hpre : ∀ tl, Forall (λ x, context_call x = false) tl →
    Forall (λ x, context_call x = false)
      (CMkdir d :: [CConnect dfd; CGetRegistry reg; CSetDispatcher reg "global" ext]
         ++ scan1 ++ [CDispatch z1] ++ scan2 ++ tl)) by (intros; forall_calls).
  assert (Hpost : Forall (λ x, context_call x = false)
    (scan ++ [CRoundtrip z; CClose l; CDisconnect dfd]
       ++ match (run env).1 with
          | Ok _ => [CPrint ("rundir: " +:+ d +:+ "/"); CRmtree d]
          | Raise _ => [CRmtree d]
          end)) by (destruct (run env).1; forall_calls).
  split; [apply Hpre; forall_calls|]. split; [done|].
  rewrite E, commits_on_app, commits_on_app.
  rewrite (commits_on_no_context _ _ Hpost).
  rewrite commits_on_no_context by (apply Hpre; forall_calls).
  unfold commits_on. cbn. by rewrite bool_decide_eq_true_2.
Qed.

(** ** Paths of the runtime directory *)

Lemma substring_all (s : string) : String.substring 0 (String.length s) s = s.
Proof. induction s as [|c s IH]; [done|]. cbn. by rewrite IH. Qed.

Lemma removeprefix_isol (name : string) :
  Py.removeprefix ("isol-" +:+ name) "isol-" = name.
Proof.
  unfold Py.removeprefix, Py.startswith. simpl.
  change ("" +:+ name) with name. rewrite Nat.sub_0_r.
  replace (String.prefix "" name) with true by (by destruct name).
  apply substring_all.
Qed.

Lemma after_last_sep_slash (a x : string) :
  Py.after_last_sep x = None →
  Py.after_last_sep (a +:+ String "/" x) = Some x.
Proof.
  intros Hx. induction a as [|c a IH]; simpl.
  - by rewrite Hx.
  - by rewrite IH.
Qed.

Lemma after_last_sep_endswith (a x : string) :
  Py.endswith_sep a = true →
  Py.after_last_sep x = None →
  Py.after_last_sep (a +:+ x) = Some x.
Proof.
  intros Ha Hx. induction a as [|c a IH]; [done|].
  destruct a as [|c' a].
  - simpl in *. change ("" +:+ x) with x. rewrite Hx. by rewrite Ha.
  - change (Py.after_last_sep (String c (String c' a +:+ x)) = Some x).
    cbn [Py.after_last_sep]. by rewrite IH.
Qed.

(** The directory [mkdtemp] creates for a name without ['/'] has the
    prefixed name as its last component. *)
Lemma basename_rundir (dir name : string) :
  Py.has_sep name = false →
  Py.basename (Py.join dir ("isol-" +:+ name)) = "isol-" +:+ name.
Proof.
  unfold Py.has_sep. intros Hn.
  assert (Hname : Py.after_last_sep name = None).
  { destruct (Py.after_last_sep name); [|done].
    rewrite bool_decide_eq_true_2 in Hn by eauto. done. }
  assert (Hx : Py.after_last_sep ("isol-" +:+ name) = None).
  { simpl. change ("" +:+ name) with name. by rewrite Hname. }
  unfold Py.join, Py.basename.
  replace (Py.startswith ("isol-" +:+ name) "/") with false by done.
  destruct (bool_decide (dir = "")) eqn:Hd; cbn [orb].
  - apply bool_decide_eq_true_1 in Hd. subst dir.
    change ("" +:+ ("isol-" +:+ name)) with ("isol-" +:+ name).
    by rewrite Hx.
  - destruct (Py.endswith_sep dir) eqn:He.
    + by rewrite after_last_sep_endswith.
    + change ("/" +:+ ("isol-" +:+ name)) with (String "/" ("isol-" +:+ name)).
      by rewrite after_last_sep_slash.
Qed.

(** C5: the instance id passed to [set_instance_id] is the basename of the
    created runtime directory with the prefix [isol-] stripped; the
    directory is [isol-] followed by one of the names [tempfile] drew, and
    for a name without ['/'] that name is the instance id, character for
    character. *)
Theorem C5_instance_id_is_basename_without_prefix env d ctx s :
  CMkdir d ∈ w_calls (run env).2 →
  CSetInstanceId ctx s ∈ w_calls (run env).2 →
  s = Py.removeprefix (Py.basename d) "isol-"
  ∧ ∃ name,
      name ∈ env_names env
      ∧ d = Py.join (env_dir env) ("isol-" +:+ name)
      ∧ (Py.has_sep name = false → Py.basename d = "isol-" +:+ s ∧ s = name).
Proof.
  intros Hd Hs.
  destruct (rf_dir_name _ _ _ (run_spec env) d Hd) as (name & Hin & Hname).
  assert (E : s = Py.removeprefix (Py.basename d) "isol-").
  { pose proof (run_trace env) as Ht.
    remember (w_calls (run env).2) as calls eqn:Ec.
    remember (run env).1 as r eqn:Er. clear Ec Er.
    inv_trace; mem_inv Hs; mem_inv Hd; injection Hd as ->; by injection Hs as _ ->. }
  split; [done|]. exists name. split_and!; try done.
  intros Hsep. rewrite E, Hname, basename_rundir by done.
  by rewrite removeprefix_isol.
Qed.

Lemma scan_call_no_endpoint (l : list Call) :
  Forall scan_call l → Forall (λ c, endpoint_call c = false) l.
Proof. intros H. eapply Forall_impl; [exact H|]. by intros []. Qed.

Ltac forall_endpoint :=
  cbn [app];
  repeat first
    [ assumption
    | apply Forall_nil_2
    | apply Forall_cons_2; [reflexivity|]
    | apply Forall_app_2
    | by apply scan_call_no_endpoint ].

(** C7: in every run that puts a socket into the listening state, that
    socket is the one Unix-domain stream socket the run creates; it is
    bound to [wayland-1] inside the runtime directory the run created and
    listens with the default backlog; no call on a security context
    precedes this, and a later [create_listener] is given this listening
    socket. *)
Theorem C7_endpoint_is_listening_unix_socket_before_creation env fd b :
  CListen fd b ∈ w_calls (run env).2 →
  ∃ d pre post,
    w_calls (run env).2 =
      (CMkdir d :: pre)
      ++ [CSocket AF_UNIX SOCK_STREAM 0 fd;
          CBind fd (d +:+ "/wayland-1");
          CListen fd b]
      ++ post
    ∧ b = DefaultBacklog
    ∧ Forall (λ c, context_call c = false) (CMkdir d :: pre)
    ∧ Forall (λ c, endpoint_call c = false) (pre ++ post)
    ∧ ∀ m l c ld cd ctx,
        CCreateListener m l c ld cd ctx ∈ post →
        l = fd ∧ ld = Some (listening_desc (d +:+ "/wayland-1")).
Proof.
  intros H. pose proof (run_trace env) as Ht.
  remember (w_calls (run env).2) as calls eqn:Ec.
  remember (run env).1 as r eqn:Er. clear Ec Er.
  inv_trace; mem_inv H; injection H as -> ->.
  all: exists d,
    ([CConnect dfd; CGetRegistry reg; CSetDispatcher reg "global" ext]
       ++ scan1 ++ [CDispatch z1] ++ scan2 ++ [CRoundtrip z2]).
  all: eexists; split; [norm_app; reflexivity|].
  all: split; [done|]. 
  all: split; [forall_calls|].
  all: split; [norm_app; forall_endpoint|].
  all: intros m' l' c' ld' cd' ctx' Hc; mem_inv Hc; by injection Hc as _ -> _ -> _ _.
Qed.

(** C8: the pipe is created by [pipe2(O_CLOEXEC)], so both descriptors are
    close-on-exec; [create_listener] is given the write end, never the read
    end, and at that moment the write end is an open descriptor of the pipe.
    Both ends are still open when the run ends. *)
Theorem C8_write_end_is_passed_open_and_cloexec env flags rd wr :
  CPipe2 flags rd wr ∈ w_calls (run env).2 →
  flags = O_CLOEXEC
  ∧ Z.land flags O_CLOEXEC ≠ 0%Z
  ∧ rd ≠ wr
  ∧ w_fds (run env).2 !! rd = Some {| fd_kind := FdPipeRead; fd_cloexec := true |}
  ∧ w_fds (run env).2 !! wr = Some {| fd_kind := FdPipeWrite; fd_cloexec := true |}
  ∧ ∀ m l c ld cd ctx,
      CCreateListener m l c ld cd ctx ∈ w_calls (run env).2 →
      c = wr ∧ c ≠ rd
      ∧ cd = Some {| fd_kind := FdPipeWrite; fd_cloexec := true |}.
Proof.
  intros H.
  destruct (rf_pipe _ _ _ (run_spec env) _ _ _ H) as (Hne & Hrd & Hwr & _).
  assert (Hf : flags = O_CLOEXEC).
  { pose proof (run_trace env) as Ht.
    remember (w_calls (run env).2) as calls eqn:Ec.
    remember (run env).1 as r eqn:Er. clear Ec Er Hrd Hwr.
    inv_trace; mem_inv H; by injection H as -> _ _. }
  split_and!; try done.
  { rewrite Hf. by vm_compute. }
  intros m l c ld cd ctx Hc.
  destruct (created_shape _ _ _ _ _ _ _ _ (run_trace env) Hc)
    as (d & dfd & reg & ext & scan1 & z1 & scan2 & z2 & rd' & scan & z
        & E & H1 & H2 & H3 & _ & -> & _).
  rewrite E in H. clear E Hrd Hwr Hc.
  destruct (run env).1; mem_inv H; injection H as _ -> ->; by split_and!.
Qed.

(** C10: the script never closes the read end of the pipe: no [close] (and
    no disconnect) is issued on that descriptor, and it is still an open
    read end when the run ends, that is until the process exits. *)
Theorem C10_read_end_is_never_closed env flags rd wr :
  CPipe2 flags rd wr ∈ w_calls (run env).2 →
  (CClose rd ∉ w_calls (run env).2)
  ∧ (CDisconnect rd ∉ w_calls (run env).2)
  ∧ w_fds (run env).2 !! rd = Some {| fd_kind := FdPipeRead; fd_cloexec := true |}.
Proof.
  intros H.
  destruct (rf_pipe _ _ _ (run_spec env) _ _ _ H) as (_ & Hrd & _ & Hcl).
  split_and!; try done.
  - intros Hc. by destruct (Hcl rd (or_introl Hc)).
  - intros Hc. by destruct (Hcl rd (or_intror Hc)).
Qed.

(** ** The final round-trip *)

Lemma after_destroy_scan l l' :
  Forall scan_call l → after_destroy (l ++ l') = after_destroy l'.
Proof. induction 1 as [|[] l Hc _ IH]; try done; destruct Hc. Qed.

Lemma first_roundtrip_scan l l' :
  Forall scan_call l → first_roundtrip (l ++ l') = first_roundtrip l'.
Proof. induction 1 as [|[] l Hc _ IH]; try done; destruct Hc. Qed.

Ltac eval_final :=
  unfold final_roundtrip; norm_app;
  repeat first
    [ progress cbn [after_destroy first_roundtrip mbind option_bind]
    | rewrite after_destroy_scan by done
    | rewrite first_roundtrip_scan by done ].

(** The result of the final round-trip decides the outcome of a run that
    got that far. *)
Lemma final_roundtrip_decides r calls z :
  main_trace r calls →
  final_roundtrip calls = Some z →
  r = if (z <? 0)%Z then Raise (RuntimeError "Roundtrip failed") else Ok tt.
Proof.
  intros Ht H. inv_trace; revert H; eval_final; try done.
  all: intros [= ->]; by destruct (z <? 0)%Z.
Qed.

(** A run that creates a security context always gets to the final
    round-trip. *)
Lemma final_roundtrip_reached r calls m l c ld cd ctx :
  main_trace r calls →
  CCreateListener m l c ld cd ctx ∈ calls →
  ∃ z, final_roundtrip calls = Some z.
Proof.
  intros Ht H.
  destruct (created_shape _ _ _ _ _ _ _ _ Ht H)
    as (d & dfd & reg & ext & scan1 & z1 & scan2 & z2 & rd & scan & z
        & -> & H1 & H2 & H3 & _).
  exists z. by eval_final.
Qed.

Ltac find_call :=
  norm_app;
  repeat first
    [ apply list_elem_of_here
    | apply list_elem_of_further
    | apply elem_of_app; right ].

(** A run that got to the final round-trip removes its directory. *)
Lemma final_roundtrip_cleans r calls z d :
  main_trace r calls →
  final_roundtrip calls = Some z →
  CMkdir d ∈ calls → CRmtree d ∈ calls.
Proof.
  intros Ht H Hd. inv_trace; revert H; eval_final; try done.
  all: intros _; mem_inv Hd; injection Hd as ->; find_call.
Qed.

(** C3: when the final round-trip, the one after the context was committed
    and its handle destroyed, returns a negative result, [main] raises
    [RuntimeError] and the runtime directory is gone when the run ends. *)
Theorem C3_failed_final_roundtrip_is_fatal env z :
  final_roundtrip (w_calls (run env).2) = Some z →
  (z < 0)%Z →
  (run env).1 = Raise (RuntimeError "Roundtrip failed")
  ∧ ∀ d, CMkdir d ∈ w_calls (run env).2 → w_fs (run env).2 !! d = None.
Proof.
  intros H Hz. split.
  - rewrite (final_roundtrip_decides _ _ _ (run_trace env) H).
    by rewrite (proj2 (Z.ltb_lt z 0) Hz).
  - intros d Hd. apply (rf_dirs _ _ _ (run_spec env)).
    by apply (final_roundtrip_cleans _ _ z d (run_trace env)).
Qed.

(** C6: for an advertised global whose interface is the security-context
    manager's, the handler prints its diagnostic, binds the global at the
    advertised version and stores the new handle in [ext.manager]; for any
    other interface it changes nothing at all. *)
Theorem C6_handler_binds_the_manager_and_ignores_the_rest
  env ext reg id_ interface version w :
  (interface = env_manager_name env →
   let m := {| mgr_id := w_next_id w; mgr_global := id_; mgr_version := version |} in
   ∃ w',
     registry_global_handler env ext reg id_ interface version w = (Ok tt, w')
     ∧ w_calls w' =
         w_calls w ++ [CPrint ("got security context manager " +:+ pretty version);
                       CRegistryBind reg id_ (env_manager_name env) version m]
     ∧ w_heap w' = <[ext := {| manager := Some m |}]> (w_heap w)
     ∧ (ext < length (w_heap w) →
        w_heap w' !! ext = Some {| manager := Some m |}))
  ∧ (interface ≠ env_manager_name env →
     registry_global_handler env ext reg id_ interface version w = (Ok tt, w)).
Proof.
  unfold registry_global_handler. split.
  - intros ->. rewrite String.eqb_refl. eexists. split; [reflexivity|].
    cbn. split_and!; try done.
    + by rewrite <- app_assoc.
    + intros Hlt. by apply list_lookup_insert_eq.
  - intros Hne. by rewrite (proj2 (String.eqb_neq _ _) Hne).
Qed.

(** C1, amended: a successful run prints the path of the runtime directory
    it created; when the line is printed the directory exists and holds
    exactly one entry, the socket file [wayland-1], whose listening socket
    is closed by then; the directory is not handed off: leaving the [with]
    block removes it on the success path too, so it does not exist when the
    run ends. *)
Theorem C1_rundir_is_printed_then_removed env :
  (run env).1 = Ok tt →
  ∃ d w1 w2,
    TemporaryDirectory_new env (xdg_runtime_dir env) "isol-" (initial_world env)
      = (Ok {| td_name := d |}, w1)
    ∧ rundir_body env d w1 = (Ok tt, w2)
    ∧ last (w_calls w2) = Some (CPrint ("rundir: " +:+ d +:+ "/"))
    ∧ w_fs w2 !! d = Some {[ "wayland-1" := NSocket ]}
    ∧ (∀ f k p fd, CSocket f k p fd ∈ w_calls w2 → w_fds w2 !! fd = None)
    ∧ (run env).2 = log (CRmtree d) (set_fs (fs_rmtree d) w2)
    ∧ w_fs (run env).2 !! d = None.
Proof.
  intros Hok.
  destruct (main_cases env)
    as [(e & E & _)|(name & d & w1 & r & w2 & _ & _ & Hnew & Hw1 & Hfs & Hb & E)];
    rewrite E in Hok |- *; [done|].
  destruct (2 <=? _)%nat; cbn [fst snd] in *; [|done]. subst r.
  destruct (rundir_body_spec env d w1 Hfs)
    as (r' & w2' & inner & E' & Ht & Hcalls & Hsock & _ & Hfs2 & _).
  rewrite Hb in E'. injection E' as <- <-.
  exists d, w1, w2. split_and!; try done.
  - rewrite Hcalls, !app_assoc. apply last_snoc.
  - by apply Hfs2.
  - intros f k p fd H. rewrite Hcalls, Hw1 in H. cbn in H.
    pose proof (display_trace_calls _ _ _ _ Ht).
    mem_inv H. eauto.
  - cbn. apply fs_rmtree_gone.
Qed.

(** A log without calls on a security context does not create one. *)
Ltac has_create Hn :=
  match type of Hn with
  | ∀ x, x ∈ ?l → _ =>
      match l with
      | context [CCreateListener ?m ?lfd ?wr ?ld ?cd ?ctx] =>
          let Hc := fresh in
          assert (Hc : CCreateListener m lfd wr ld cd ctx ∈ l) by find_call;
          apply Hn in Hc; discriminate Hc
      end
  end.

(** A run whose log has no call on a security context ends in an error. *)
Lemma no_context_raises r calls :
  main_trace r calls →
  Forall (λ c, context_call c = false) calls →
  ∃ e, r = Raise e.
Proof.
  intros Ht Hn. destruct r as [[]|e]; [exfalso|by eexists].
  rewrite Forall_forall in Hn.
  inv_trace.
  match goal with
  | H : _ = Ok () |- _ => clear H
  end.
  has_create Hn.
Qed.

(** The directory a run creates is the first thing in its log. *)
Lemma mkdir_is_first r calls d :
  main_trace r calls → CMkdir d ∈ calls → head calls = Some (CMkdir d).
Proof.
  intros Ht H. inv_trace; mem_inv H; by injection H as ->.
Qed.

(** A run that ends with the error of the cleanup never had a socket. *)
Lemma kept_without_endpoint calls :
  main_trace (Raise (OSError "rmtree")) calls →
  Forall (λ c, endpoint_call c = false) calls.
Proof.
  intros Ht. inv_trace; try done; try forall_endpoint.
  by destruct (z <? 0)%Z.
Qed.

(** C2, amended: when no security-context-manager global is advertised, the
    run ends in an error, makes no call on a security context and leaves no
    open socket behind.  The runtime directory is removed when the run ends
    unless fewer than two descriptors were free at the start: the cleanup
    needs two, so the run then ends with the cleanup's error and leaves the
    directory, empty, no socket having been created.  There is no check of
    the handle before the endpoint is provisioned: whenever every step up to
    [pipe2] can succeed, the socket is created, bound and put into the
    listening state and the pipe is created, and only then the run fails
    with the [AttributeError] of looking up [create_listener] on [None];
    that error does not arise in another way. *)
Theorem C2_missing_manager_fails_after_provisioning env :
  no_manager_advertised env = true →
  (∃ e, (run env).1 = Raise e)
  ∧ Forall (λ c, context_call c = false) (w_calls (run env).2)
  ∧ (∀ f k p fd, CSocket f k p fd ∈ w_calls (run env).2 →
       w_fds (run env).2 !! fd = None)
  ∧ (∀ d, CMkdir d ∈ w_calls (run env).2 →
       if (2 <=? free_at_start env)%nat
       then w_fs (run env).2 !! d = None
       else (run env).1 = Raise (OSError "rmtree")
            ∧ w_fs (run env).2 !! d = Some ∅
            ∧ Forall (λ c, endpoint_call c = false) (w_calls (run env).2))
  ∧ (∀ d, CMkdir d ∈ w_calls (run env).2 →
       env_connect_ok env = true →
       b_result (env_server env 0) ≠ (-1)%Z →
       env_socket_ok env = true →
       env_bind_ok env = true →
       env_listen_ok env = true →
       env_pipe_ok env = true →
       (4 ≤ free_at_start env)%nat →
       (run env).1 = Raise (AttributeError "create_listener")
       ∧ ∃ dfd reg ext lfd rd wr,
           w_calls (run env).2 =
             [CMkdir d;
              CConnect dfd;
              CGetRegistry reg;
              CSetDispatcher reg "global" ext;
              CDispatch (b_result (env_server env 0));
              CRoundtrip (b_result (env_server env 1));
              CSocket AF_UNIX SOCK_STREAM 0 lfd;
              CBind lfd (d +:+ "/wayland-1");
              CListen lfd DefaultBacklog;
              CPipe2 O_CLOEXEC rd wr;
              CClose lfd;
              CDisconnect dfd;
              CRmtree d])
  ∧ ((run env).1 = Raise (AttributeError "create_listener") →
     ∃ fd rd wr,
       CListen fd DefaultBacklog ∈ w_calls (run env).2
       ∧ CPipe2 O_CLOEXEC rd wr ∈ w_calls (run env).2)
  ∧ (∀ flags rd wr, CPipe2 flags rd wr ∈ w_calls (run env).2 →
       (run env).1 = Raise (AttributeError "create_listener")).
Proof.
  intros Hn.
  pose proof (rf_no_manager _ _ _ (run_spec env) Hn) as Hnc.
  pose proof (run_trace env) as Ht.
  split_and!.
  - by eapply no_context_raises.
  - done.
  - apply run_spec.
  - intros d Hd. apply (mkdir_is_first _ _ _ Ht) in Hd.
    destruct (run_exact env)
      as [(e & _ & E & _)
         |(d' & w1 & parent & tbl & inner & T & _ & _ & _ & _ & Hr & Hc & Hfs & _)].
    { rewrite E in Hd. done. }
    rewrite Hc in Hd. injection Hd as ->.
    destruct (2 <=? free_at_start env)%nat.
    + rewrite Hfs. apply fs_rmtree_gone.
    + split; [done|]. split; [by rewrite Hfs, lookup_insert_eq|].
      rewrite Hr in Ht. by apply kept_without_endpoint.
  - intros d Hd Hconn Hz Hsock Hbind Hlisten Hpipe Hfree.
    apply (mkdir_is_first _ _ _ Ht) in Hd.
    destruct (run_exact env)
      as [(e & _ & E & _)
         |(d' & w1 & parent & tbl & inner & T & _ & _ & _ & _ & Hr & Hc & _ & _ & _ & Hq)].
    { rewrite E in Hd. done. }
    rewrite Hc in Hd. injection Hd as ->.
    assert (Hf : first_failure env = Raise (AttributeError "create_listener")).
    { unfold first_failure. rewrite Hconn, Hsock, Hbind, Hlisten, Hpipe, Hn.
      rewrite (proj2 (Z.eqb_neq _ _) Hz).
      by rewrite !(proj2 (Nat.leb_le _ _)) by lia. }
    rewrite (proj2 (Nat.leb_le 2 _)) in Hr, Hc by lia.
    rewrite Hf in Hr, Hc. split; [done|].
    destruct (Hq Hn Hf) as (dfd & reg & ext & lfd & rd & wr & ->).
    by exists dfd, reg, ext, lfd, rd, wr.
  - intros Hr. rewrite Hr in Ht. clear Hr Hnc.
    remember (w_calls (run env).2) as calls eqn:Ec. clear Ec.
    inv_trace; try done.
    + exists lfd, rd, wr. split; find_call.
    + by destruct (z <? 0)%Z.
  - intros flags rd wr H.
    remember (w_calls (run env).2) as calls eqn:Ec.
    remember (run env).1 as r eqn:Er. clear Ec Er.
    rewrite Forall_forall in Hnc.
    inv_trace; mem_inv H; try done.
    all: exfalso; has_create Hnc.
Qed.

(** * The claims on concrete runs *)

Ltac in_log :=
  vm_compute; repeat first [ apply list_elem_of_here | apply list_elem_of_further ].

(** C1 as stated fails: the successful run [env_ok] prints the path of its
    runtime directory, and when it ends that directory does not exist: the
    runtime directory has no entry at all. *)
Lemma C1_counterexample :
  (run env_ok).1 = Ok tt
  ∧ stdout (w_calls (run env_ok).2) =
      ["got security context manager 1"; "rundir: /run/user/1000/isol-k3x_9q2a/"]
  ∧ w_fs (run env_ok).2 !! "/run/user/1000/isol-k3x_9q2a" = None
  ∧ w_fs (run env_ok).2 !! "/run/user/1000" = Some ∅.
Proof. by vm_compute. Qed.

(** The successful run [env_ok]. *)
Lemma C1_witness :
  (run env_ok).1 = Ok tt
  ∧ ∃ d w1 w2,
      TemporaryDirectory_new env_ok (xdg_runtime_dir env_ok) "isol-"
        (initial_world env_ok) = (Ok {| td_name := d |}, w1)
      ∧ rundir_body env_ok d w1 = (Ok tt, w2)
      ∧ last (w_calls w2) = Some (CPrint ("rundir: " +:+ d +:+ "/"))
      ∧ w_fs w2 !! d = Some {[ "wayland-1" := NSocket ]}
      ∧ (∀ f k p fd, CSocket f k p fd ∈ w_calls w2 → w_fds w2 !! fd = None)
      ∧ (run env_ok).2 = log (CRmtree d) (set_fs (fs_rmtree d) w2)
      ∧ w_fs (run env_ok).2 !! d = None.
Proof.
  split; [vm_compute; reflexivity|].
  apply (C1_rundir_is_printed_then_removed env_ok). vm_compute. reflexivity.
Defined.

(** C2 as stated fails: in the run [env_no_manager] no manager is
    advertised, yet the socket is created, bound and listening, and the
    pipe exists, before the run fails on the empty handle. *)
Lemma C2_counterexample :
  no_manager_advertised env_no_manager = true
  ∧ (run env_no_manager).1 = Raise (AttributeError "create_listener")
  ∧ w_calls (run env_no_manager).2 =
      [CMkdir "/run/user/1000/isol-k3x_9q2a";
       CConnect 3;
       CGetRegistry {| reg_id := 2 |};
       CSetDispatcher {| reg_id := 2 |} "global" 0;
       CDispatch 0;
       CRoundtrip 2;
       CSocket AF_UNIX SOCK_STREAM 0 4;
       CBind 4 "/run/user/1000/isol-k3x_9q2a/wayland-1";
       CListen 4 DefaultBacklog;
       CPipe2 O_CLOEXEC 5 6;
       CClose 4;
       CDisconnect 3;
       CRmtree "/run/user/1000/isol-k3x_9q2a"].
Proof. by vm_compute. Qed.

(** The run [env_no_manager], where no manager is advertised and every
    step up to [pipe2] succeeds: the endpoint is provisioned before the run
    fails, and the directory is removed. *)
Lemma C2_witness :
  no_manager_advertised env_no_manager = true
  ∧ (run env_no_manager).1 = Raise (AttributeError "create_listener")
  ∧ (∃ dfd reg ext lfd rd wr,
       w_calls (run env_no_manager).2 =
         [CMkdir "/run/user/1000/isol-k3x_9q2a";
          CConnect dfd;
          CGetRegistry reg;
          CSetDispatcher reg "global" ext;
          CDispatch (b_result (env_server env_no_manager 0));
          CRoundtrip (b_result (env_server env_no_manager 1));
          CSocket AF_UNIX SOCK_STREAM 0 lfd;
          CBind lfd ("/run/user/1000/isol-k3x_9q2a" +:+ "/wayland-1");
          CListen lfd DefaultBacklog;
          CPipe2 O_CLOEXEC rd wr;
          CClose lfd;
          CDisconnect dfd;
          CRmtree "/run/user/1000/isol-k3x_9q2a"])
  ∧ w_fs (run env_no_manager).2 !! "/run/user/1000/isol-k3x_9q2a" = None.
Proof.
  split; [vm_compute; reflexivity|].
  destruct (C2_missing_manager_fails_after_provisioning env_no_manager)
    as (_ & _ & _ & H4 & H5 & _); [vm_compute; reflexivity|].
  assert (Hd : CMkdir "/run/user/1000/isol-k3x_9q2a" ∈ w_calls (run env_no_manager).2)
    by in_log.
  destruct (H5 _ Hd) as [Hr Hc];
    [reflexivity|vm_compute; discriminate|reflexivity..|vm_compute; lia|].
  split; [exact Hr|]. split; [exact Hc|].
  exact (H4 _ Hd).
Defined.

(** The run [env_nack], whose final round-trip returns [-1]. *)
Lemma C3_witness :
  final_roundtrip (w_calls (run env_nack).2) = Some (-1)%Z
  ∧ (-1 < 0)%Z
  ∧ (run env_nack).1 = Raise (RuntimeError "Roundtrip failed")
  ∧ ∀ d, CMkdir d ∈ w_calls (run env_nack).2 → w_fs (run env_nack).2 !! d = None.
Proof.
  split; [vm_compute; reflexivity|]. split; [lia|].
  apply (C3_failed_final_roundtrip_is_fatal env_nack (-1)%Z);
    [vm_compute; reflexivity|lia].
Defined.

(** The run [env_ok] creates one context and commits it once. *)
Lemma C4_witness :
  CCreateListener {| mgr_id := 3; mgr_global := 7; mgr_version := 1 |} 4 6
    (Some (listening_desc "/run/user/1000/isol-k3x_9q2a/wayland-1"))
    (Some (pipe_desc FdPipeWrite)) {| ctx_id := 4 |} ∈ w_calls (run env_ok).2
  ∧ commits_on {| ctx_id := 4 |} (w_calls (run env_ok).2) = 1.
Proof.
  split; [in_log|].
  destruct (C4_commit_once_between_attributes_and_destroy env_ok
              {| mgr_id := 3; mgr_global := 7; mgr_version := 1 |} 4 6
              (Some (listening_desc "/run/user/1000/isol-k3x_9q2a/wayland-1"))
              (Some (pipe_desc FdPipeWrite)) {| ctx_id := 4 |})
    as (pre & post & engine & app_id & instance_id & _ & _ & _ & H).
  - in_log.
  - exact H.
Defined.

(** In the run [env_ok] the instance id is the drawn name. *)
Lemma C5_witness :
  CMkdir "/run/user/1000/isol-k3x_9q2a" ∈ w_calls (run env_ok).2
  ∧ CSetInstanceId {| ctx_id := 4 |} "k3x_9q2a" ∈ w_calls (run env_ok).2
  ∧ "k3x_9q2a" = Py.removeprefix (Py.basename "/run/user/1000/isol-k3x_9q2a") "isol-".
Proof.
  split; [in_log|]. split; [in_log|].
  apply (C5_instance_id_is_basename_without_prefix env_ok
           "/run/user/1000/isol-k3x_9q2a" {| ctx_id := 4 |} "k3x_9q2a");
    in_log.
Defined.

(** The handler on a world with one [SecurityContextExt] object: the manager
    global is bound and stored, [wl_compositor] is ignored. *)
Lemma C6_witness :
  let w := set_heap (λ _, [{| manager := None |}]) (initial_world env_ok) in
  (∃ w',
     registry_global_handler env_ok 0 {| reg_id := 2 |} 7
       "wp_security_context_manager_v1" 1 w = (Ok tt, w')
     ∧ w_heap w' !! 0 =
         Some {| manager := Some {| mgr_id := 2; mgr_global := 7; mgr_version := 1 |} |})
  ∧ registry_global_handler env_ok 0 {| reg_id := 2 |} 1 "wl_compositor" 5 w
    = (Ok tt, w).
Proof.
  intros w. split.
  - destruct (proj1 (C6_handler_binds_the_manager_and_ignores_the_rest
                       env_ok 0 {| reg_id := 2 |} 7
                       "wp_security_context_manager_v1" 1 w) eq_refl)
      as (w' & E & _ & _ & H).
    exists w'. split; [exact E|]. apply H. vm_compute. lia.
  - apply (proj2 (C6_handler_binds_the_manager_and_ignores_the_rest
                    env_ok 0 {| reg_id := 2 |} 1 "wl_compositor" 5 w)).
    vm_compute. discriminate.
Defined.

(** The run [env_ok] listens on descriptor 4. *)
Lemma C7_witness :
  CListen 4 DefaultBacklog ∈ w_calls (run env_ok).2
  ∧ ∃ d pre post,
      w_calls (run env_ok).2 =
        (CMkdir d :: pre)
        ++ [CSocket AF_UNIX SOCK_STREAM 0 4;
            CBind 4 (d +:+ "/wayland-1");
            CListen 4 DefaultBacklog]
        ++ post.
Proof.
  split; [in_log|].
  destruct (C7_endpoint_is_listening_unix_socket_before_creation env_ok 4
              DefaultBacklog) as (d & pre & post & E & _); [in_log|].
  exists d, pre, post. exact E.
Defined.

(** The pipe of the run [env_ok] has the ends 5 and 6. *)
Lemma C8_witness :
  CPipe2 O_CLOEXEC 5 6 ∈ w_calls (run env_ok).2
  ∧ w_fds (run env_ok).2 !! 6 = Some {| fd_kind := FdPipeWrite; fd_cloexec := true |}
  ∧ ∀ m l c ld cd ctx,
      CCreateListener m l c ld cd ctx ∈ w_calls (run env_ok).2 →
      c = 6 ∧ c ≠ 5 ∧ cd = Some {| fd_kind := FdPipeWrite; fd_cloexec := true |}.
Proof.
  split; [in_log|].
  destruct (C8_write_end_is_passed_open_and_cloexec env_ok O_CLOEXEC 5 6)
    as (_ & _ & _ & _ & H1 & H2); [in_log|].
  exact (conj H1 H2).
Defined.

(** The attributes set in the run [env_ok]. *)
Lemma C9_witness :
  CSetSandboxEngine {| ctx_id := 4 |} "io.r5t" ∈ w_calls (run env_ok).2
  ∧ CSetAppId {| ctx_id := 4 |} "sandbox.devenv" ∈ w_calls (run env_ok).2
  ∧ "io.r5t" = "io.r5t"
  ∧ "sandbox.devenv" = "sandbox.devenv".
Proof.
  split; [in_log|]. split; [in_log|]. split.
  - apply (proj1 (proj1 C9_engine_and_app_id_are_constants env_ok
                    {| ctx_id := 4 |} "io.r5t")). in_log.
  - apply (proj2 (proj1 C9_engine_and_app_id_are_constants env_ok
                    {| ctx_id := 4 |} "sandbox.devenv")). in_log.
Defined.

(** The read end 5 of the run [env_ok] stays open. *)
Lemma C10_witness :
  CPipe2 O_CLOEXEC 5 6 ∈ w_calls (run env_ok).2
  ∧ (CClose 5 ∉ w_calls (run env_ok).2)
  ∧ (CDisconnect 5 ∉ w_calls (run env_ok).2)
  ∧ w_fds (run env_ok).2 !! 5 = Some {| fd_kind := FdPipeRead; fd_cloexec := true |}.
Proof.
  split; [in_log|].
  apply (C10_read_end_is_never_closed env_ok O_CLOEXEC 5 6). in_log.
Defined.

(** * Further properties, as theorems *)

(** ** The outcome of a run *)

(** X1: the outcome of a run is decided by the first step that fails.  When
    [mkdtemp] cannot create a runtime directory, the run ends with the
    exception of [mkdtemp], whichever it is, and has done nothing.
    Otherwise the result is the error of the first failing step among
    connect, dispatch, socket, bind, listen, pipe2, the lookup on an empty
    manager handle and a negative final round-trip, and success when none
    fails; except that with fewer than two free descriptors at the start
    the cleanup of the directory fails as well, and its error is the
    outcome. *)
Theorem X1_outcome_is_the_first_failure env :
  match mkdtemp env (env_dir env) "isol-" (env_names env) (initial_world env) with
  | (Raise e, _) => run env = (Raise e, initial_world env)
  | (Ok _, _) =>
      (run env).1 =
        if (2 <=? free_at_start env)%nat then first_failure env
        else Raise (OSError "rmtree")
  end.
Proof.
  destruct (run_exact env)
    as [(e & -> & E & _)
       |(d & w1 & parent & tbl & inner & T & -> & _ & _ & _ & Hr & _)]; done.
Qed.

(** The result [first_failure] gives when it is an [OSError]. *)
Lemma first_failure_os env what :
  first_failure env = Raise (OSError what) →
  (what = "socket"
   ∧ env_socket_ok env && (2 <=? free_at_start env)%nat = false)
  ∨ what = "bind" ∨ what = "listen" ∨ what = "pipe2".
Proof.
  unfold first_failure.
  repeat match goal with
         | |- context [if negb ?c then _ else _] =>
             destruct c eqn:?; cbn [negb]
         | |- context [if ?c then _ else _] => destruct c eqn:?
         end; intros [= <-]; auto.
Qed.

(** With two free descriptors at the start, the log of a run that created
    its directory ends with the removal of that directory. *)
Lemma run_removes env d :
  (2 ≤ free_at_start env)%nat →
  CMkdir d ∈ w_calls (run env).2 →
  (run env).1 = first_failure env
  ∧ CRmtree d ∈ w_calls (run env).2.
Proof.
  intros Hfree Hd.
  apply (mkdir_is_first _ _ _ (run_trace env)) in Hd.
  destruct (run_exact env)
    as [(e & _ & E & _)
       |(d' & w1 & parent & tbl & inner & T & _ & _ & _ & _ & Hr & Hc & _)].
  { rewrite E in Hd. done. }
  rewrite (proj2 (Nat.leb_le 2 _)) in Hr, Hc by done.
  rewrite Hc in Hd |- *. injection Hd as ->. split; [done|].
  apply list_elem_of_further, elem_of_app. right.
  apply elem_of_app. right. apply list_elem_of_here.
Qed.

Lemma after_first_roundtrip_scan l l' :
  Forall scan_call l →
  after_first_roundtrip (l ++ l') = after_first_roundtrip l'.
Proof. induction 1 as [|[] l Hc _ IH]; try done; destruct Hc. Qed.

(** X2: the result of the first round-trip (line 30) is not looked at:
    whatever it is, also when it reports an error, the next thing the run
    does is to create the socket, provided [socket] can succeed. *)
Theorem X2_initial_roundtrip_is_not_checked env z :
  initial_roundtrip (w_calls (run env).2) = Some z →
  env_socket_ok env = true →
  (2 ≤ free_at_start env)%nat →
  ∃ fd rest,
    after_first_roundtrip (w_calls (run env).2)
      = CSocket AF_UNIX SOCK_STREAM 0 fd :: rest.
Proof.
  intros Hz Hsock Hfree.
  assert (Hr : (run env).1 = first_failure env
               ∧ ∃ d, CRmtree d ∈ w_calls (run env).2).
  { destruct (run_exact env)
      as [(e & _ & E & _)
         |(d' & w1 & parent & tbl & inner & T & _ & _ & _ & _ & Hr & Hc & _)].
    { rewrite E in Hz. done. }
    rewrite (proj2 (Nat.leb_le 2 _)) in Hr, Hc by done.
    split; [done|]. exists d'. rewrite Hc.
    apply list_elem_of_further, elem_of_app. right.
    apply elem_of_app. right. apply list_elem_of_here. }
  destruct Hr as [Hr [d' Hrm]].
  pose proof (run_trace env) as Ht.
  remember (w_calls (run env).2) as calls eqn:Ec.
  remember (run env).1 as r eqn:Er. clear Ec Er.
  assert (Hno : first_failure env ≠ Raise (OSError "socket")).
  { intros [[_ E]|[E|[E|E]]]%first_failure_os; try discriminate E.
    rewrite Hsock, (proj2 (Nat.leb_le 2 _)) in E by done. discriminate E. }
  unfold initial_roundtrip in Hz.
  inv_trace; try (by mem_inv Hrm); try done.
  all: try (revert Hz; norm_app; cbn [first_roundtrip];
            rewrite ?first_roundtrip_scan by done; by cbn [first_roundtrip]).
  all: norm_app; cbn [after_first_roundtrip].
  all: rewrite ?after_first_roundtrip_scan by done; cbn [after_first_roundtrip].
  all: rewrite ?after_first_roundtrip_scan by done; cbn [after_first_roundtrip].
  all: by eexists _, _.
Qed.

(** In the run [env_lost] the first round-trip fails, and the socket is
    created all the same. *)
Lemma X2_witness :
  initial_roundtrip (w_calls (run env_lost).2) = Some (-1)%Z
  ∧ ∃ fd rest,
      after_first_roundtrip (w_calls (run env_lost).2)
        = CSocket AF_UNIX SOCK_STREAM 0 fd :: rest.
Proof.
  split; [vm_compute; reflexivity|].
  apply (X2_initial_roundtrip_is_not_checked env_lost (-1)%Z).
  - vm_compute. reflexivity.
  - reflexivity.
  - vm_compute. lia.
Defined.

(** X3: the error of line 43 arises at line 43 only: when the run ends
    with [RuntimeError("Roundtrip failed")], the log shows a final
    round-trip, after the context was destroyed, with a negative result.
    Together with C3: exactly then. *)
Theorem X3_roundtrip_failed_only_from_final_roundtrip env :
  (run env).1 = Raise (RuntimeError "Roundtrip failed") →
  ∃ z, final_roundtrip (w_calls (run env).2) = Some z ∧ (z < 0)%Z.
Proof.
  intros Hr. pose proof (run_trace env) as Ht. rewrite Hr in Ht. clear Hr.
  remember (w_calls (run env).2) as calls eqn:Ec. clear Ec.
  inv_trace; try done.
  match goal with
  | H : (if (?z <? 0)%Z then _ else _) = _ |- _ =>
      destruct (Z.ltb_spec z 0); [|done];
      exists z; split; [by eval_final|done]
  end.
Qed.

(** The run [env_nack]. *)
Lemma X3_witness :
  (run env_nack).1 = Raise (RuntimeError "Roundtrip failed")
  ∧ ∃ z, final_roundtrip (w_calls (run env_nack).2) = Some z ∧ (z < 0)%Z.
Proof.
  split; [vm_compute; reflexivity|].
  apply (X3_roundtrip_failed_only_from_final_roundtrip env_nack).
  vm_compute. reflexivity.
Defined.

(** ** Releases *)

Lemma scan_no_release l :
  Forall scan_call l → List.filter release_call l = [] ∧ omap release_of l = [].
Proof.
  induction 1 as [|c l Hc _ [IH1 IH2]]; [done|].
  destruct c; try destruct Hc; cbn; by rewrite ?IH1, ?IH2.
Qed.

Lemma from_first_release_scan l l' :
  Forall scan_call l → from_first_release (l ++ l') = from_first_release l'.
Proof. induction 1 as [|[] l Hc _ IH]; try done; destruct Hc. Qed.

Ltac eval_release :=
  norm_app;
  repeat first
    [ progress cbn [List.filter omap list_omap release_call release_of
                    from_first_release rev app]
    | rewrite List.filter_app
    | rewrite omap_app
    | rewrite rev_app_distr
    | rewrite from_first_release_scan by done
    | match goal with
      | H : Forall scan_call ?l |- context [List.filter release_call ?l] =>
          rewrite (proj1 (scan_no_release l H))
      | H : Forall scan_call ?l |- context [omap release_of ?l] =>
          rewrite (proj2 (scan_no_release l H))
      end ].

(** X4: on every exit path the connection and the socket are released
    exactly once each, in the reverse order of their acquisition, and
    nothing is acquired once the first release was made.  The runtime
    directory is released as well, last of all, unless its cleanup fails:
    the run then ends with the cleanup's error and the release of the
    directory is the one that is missing.  With two free descriptors at the
    start the cleanup does not fail. *)
Theorem X4_releases_mirror_acquisitions env :
  omap release_of (from_first_release (w_calls (run env).2)) = []
  ∧ (List.filter release_call (w_calls (run env).2)
       = rev (omap release_of (w_calls (run env).2))
     ∨ ((run env).1 = Raise (OSError "rmtree")
        ∧ ∃ d, head (w_calls (run env).2) = Some (CMkdir d)
               ∧ List.filter release_call (w_calls (run env).2) ++ [CRmtree d]
                 = rev (omap release_of (w_calls (run env).2))))
  ∧ ((2 ≤ free_at_start env)%nat →
     List.filter release_call (w_calls (run env).2)
       = rev (omap release_of (w_calls (run env).2))).
Proof.
  assert (H : ∀ r calls, main_trace r calls →
    omap release_of (from_first_release calls) = []
    ∧ (List.filter release_call calls = rev (omap release_of calls)
       ∨ (r = Raise (OSError "rmtree")
          ∧ (∀ d, CRmtree d ∉ calls)
          ∧ ∃ d, head calls = Some (CMkdir d)
                 ∧ List.filter release_call calls ++ [CRmtree d]
                   = rev (omap release_of calls)))).
  { intros r calls Ht. inv_trace;
      (split; [by eval_release|]);
      first [ left; by eval_release
            | right; split; [done|]; split;
              [intros d' Hd'; by mem_inv Hd'
              |eexists; split; [done|by eval_release]] ]. }
  destruct (H _ _ (run_trace env)) as (H1 & H2).
  split; [done|]. split.
  - destruct H2 as [H2|(Hr & _ & H2)]; [by left|by right].
  - intros Hfree. destruct H2 as [H2|(Hr & Hno & d & Hd & _)]; [done|].
    exfalso. apply (Hno d). apply (run_removes env d Hfree).
    destruct (w_calls (run env).2) as [|c l]; [done|].
    injection Hd as ->. apply list_elem_of_here.
Qed.

(** ** The file system and the descriptor table after a run *)

(** X5: with two free descriptors at the start, a run leaves the file
    system as it found it, whatever its outcome, provided nothing existed
    at or below the path of the directory it created: the directory, the
    socket file in it and the entry in the runtime directory are all gone
    again. *)
Theorem X5_file_system_is_restored env :
  (2 ≤ free_at_start env)%nat →
  (∀ d k, CMkdir d ∈ w_calls (run env).2 → under d k = true →
          env_fs env !! k = None) →
  w_fs (run env).2 = env_fs env.
Proof.
  intros Hfree Hnone.
  destruct (run_exact env)
    as [(e & _ & E & _)
       |(d & w1 & parent & tbl & inner & T & _ & Hp & Hpar & Htbl & _ & Hc & Hfs & _)].
  - by rewrite E.
  - rewrite (proj2 (Nat.leb_le 2 _)) in Hfs by done. rewrite Hfs.
    apply fs_rmtree_restores; try done.
    intros k. apply Hnone. rewrite Hc. apply list_elem_of_here.
Qed.

(** Nothing exists below the directory the run [env_ok] creates. *)
Lemma env_ok_nothing_below d k :
  CMkdir d ∈ w_calls (run env_ok).2 → under d k = true → env_fs env_ok !! k = None.
Proof.
  intros Hd Hu.
  assert (F : Forall (λ c, match c with
                           | CMkdir d => d = "/run/user/1000/isol-k3x_9q2a"
                           | _ => True
                           end) (w_calls (run env_ok).2)).
  { vm_compute. repeat constructor. }
  pose proof (proj1 (Forall_forall _ _) F _ Hd) as E. cbn in E. subst d.
  apply lookup_singleton_ne. intros <-. vm_compute in Hu. discriminate Hu.
Defined.

(** The run [env_ok] leaves [/run/user/1000] empty, as it was. *)
Lemma X5_witness :
  (2 ≤ free_at_start env_ok)%nat ∧ w_fs (run env_ok).2 = env_fs env_ok.
Proof.
  assert (H : (2 ≤ free_at_start env_ok)%nat) by (vm_compute; lia).
  split; [exact H|].
  apply (X5_file_system_is_restored env_ok H). exact env_ok_nothing_below.
Defined.

(** X12: with fewer than two free descriptors at the start, a run that
    creates its runtime directory cannot remove it again: it never gets as
    far as a socket, the cleanup of the directory fails for lack of
    descriptors, its [OSError] replaces the error the run failed with, and
    the directory is left behind, empty. *)
Theorem X12_cleanup_without_descriptors_keeps_the_directory env d :
  (free_at_start env < 2)%nat →
  CMkdir d ∈ w_calls (run env).2 →
  (run env).1 = Raise (OSError "rmtree")
  ∧ w_fs (run env).2 !! d = Some ∅
  ∧ Forall (λ c, endpoint_call c = false) (w_calls (run env).2)
  ∧ CRmtree d ∉ w_calls (run env).2.
Proof.
  intros Hfree Hd.
  pose proof (run_trace env) as Ht.
  apply (mkdir_is_first _ _ _ Ht) in Hd.
  destruct (run_exact env)
    as [(e & _ & E & _)
       |(d' & w1 & parent & tbl & inner & T & _ & _ & _ & _ & Hr & Hc & Hfs & _)].
  { rewrite E in Hd. done. }
  rewrite (proj2 (Nat.leb_gt 2 _)) in Hr, Hc, Hfs by done.
  rewrite Hc in Hd. injection Hd as ->.
  rewrite Hr in Ht.
  split; [done|]. split; [by rewrite Hfs, lookup_insert_eq|].
  split; [by apply kept_without_endpoint|].
  intros Hrm.
  remember (w_calls (run env).2) as calls eqn:Ec. clear Ec Hc.
  inv_trace; try done; try (by mem_inv Hrm).
  all: try by destruct (z <? 0)%Z.
Qed.

(** The run [env_exhausted] has one free descriptor: the connection takes
    it, [socket] fails, and the directory cannot be removed. *)
Lemma X12_witness :
  (free_at_start env_exhausted < 2)%nat
  ∧ CMkdir "/run/user/1000/isol-k3x_9q2a" ∈ w_calls (run env_exhausted).2
  ∧ (run env_exhausted).1 = Raise (OSError "rmtree")
  ∧ w_fs (run env_exhausted).2 !! "/run/user/1000/isol-k3x_9q2a" = Some ∅.
Proof.
  assert (H : (free_at_start env_exhausted < 2)%nat) by (vm_compute; lia).
  assert (Hd : CMkdir "/run/user/1000/isol-k3x_9q2a" ∈ w_calls (run env_exhausted).2)
    by in_log.
  split; [exact H|]. split; [exact Hd|].
  destruct (X12_cleanup_without_descriptors_keeps_the_directory env_exhausted
              "/run/user/1000/isol-k3x_9q2a" H Hd) as (H1 & H2 & _).
  exact (conj H1 H2).
Defined.

(** X6: apart from the two ends of the pipe, the descriptor table at the end
    of a run is the one the process started with, on every exit path: the
    connection and the socket are closed again, and no descriptor that was
    open at the start is closed or changed. *)
Theorem X6_descriptors_are_restored_except_the_pipe env fd :
  (∀ flags rd wr, CPipe2 flags rd wr ∈ w_calls (run env).2 → fd ≠ rd ∧ fd ≠ wr) →
  w_fds (run env).2 !! fd = env_fds env !! fd.
Proof.
  intros Hp.
  destruct (run_exact env)
    as [(e & _ & E & _)
       |(d & w1 & parent & tbl & inner & T & _ & _ & _ & _ & _ & Hc & _ & Hfds & _)].
  - by rewrite E.
  - apply Hfds. intros flags rd wr H. apply (Hp flags). rewrite Hc.
    apply list_elem_of_further, elem_of_app. by left.
Qed.

(** The pipe of the run [env_ok]. *)
Lemma env_ok_pipe flags rd wr :
  CPipe2 flags rd wr ∈ w_calls (run env_ok).2 → rd = 5 ∧ wr = 6.
Proof.
  intros H.
  assert (F : Forall (λ c, match c with
                           | CPipe2 _ rd wr => rd = 5 ∧ wr = 6
                           | _ => True
                           end) (w_calls (run env_ok).2)).
  { vm_compute. repeat constructor. }
  exact (proj1 (Forall_forall _ _) F _ H).
Defined.

(** In the run [env_ok] descriptor 4, the socket, is closed again and
    descriptor 1 is as it was. *)
Lemma X6_witness :
  w_fds (run env_ok).2 !! 4 = env_fds env_ok !! 4
  ∧ w_fds (run env_ok).2 !! 1 = env_fds env_ok !! 1.
Proof.
  split; apply (X6_descriptors_are_restored_except_the_pipe env_ok);
    intros flags rd wr H; destruct (env_ok_pipe _ _ _ H) as [-> ->];
    split; discriminate.
Defined.

(** ** The manager a context is created on *)

Lemma before_create_stops l l' m lfd c ld cd ctx :
  CCreateListener m lfd c ld cd ctx ∈ l →
  before_create (l ++ l') = before_create l.
Proof.
  induction l as [|x l IH]; intros H; [by apply elem_of_nil in H|].
  apply elem_of_cons in H. destruct H as [<-|H]; [done|].
  cbn [app before_create]. rewrite (IH H). by destruct x.
Qed.

(** X7: [create_listener] is called on the proxy that the last
    [registry.bind] before it returned; that bind was made by the handler
    for the manager's interface, with the advertised id and version.  When
    the manager is advertised more than once, the last advertisement
    wins. *)
Theorem X7_context_is_created_on_the_last_bound_manager env m l c ld cd ctx :
  CCreateListener m l c ld cd ctx ∈ w_calls (run env).2 →
  ∃ reg id_ version,
    last_bind (before_create (w_calls (run env).2))
      = Some (CRegistryBind reg id_ (env_manager_name env) version m)
    ∧ mgr_global m = id_
    ∧ mgr_version m = version.
Proof.
  intros H.
  destruct (run_exact env)
    as [(e & _ & E & _)
       |(d & w1 & parent & tbl & inner & T & _ & _ & _ & _ & _ & Hc & _ & _ & Hm & _)].
  { rewrite E in H. cbn in H. by apply elem_of_nil in H. }
  rewrite Hc in H |- *.
  assert (Hin : CCreateListener m l c ld cd ctx ∈ inner).
  { apply elem_of_cons in H. destruct H as [H|H]; [done|].
    apply elem_of_app in H. destruct H as [H|H]; [done|].
    destruct (2 <=? free_at_start env)%nat; [destruct (first_failure env)|];
      mem_inv H. }
  destruct (Hm _ _ _ _ _ _ Hin) as (b & Hb & Hbp & Hbh).
  cbn [before_create last_bind]. rewrite (before_create_stops _ _ _ _ _ _ _ _ Hin), Hb.
  destruct b; try done. cbn in Hbp, Hbh. injection Hbp as ->.
  destruct Hbh as (-> & <- & <-). by eexists _, _, _.
Qed.

(** In the run [env_two_managers] the second advertisement is the one used. *)
Lemma X7_witness :
  last_bind (before_create (w_calls (run env_two_managers).2))
    = Some (CRegistryBind {| reg_id := 2 |} 9 "wp_security_context_manager_v1" 2
              {| mgr_id := 4; mgr_global := 9; mgr_version := 2 |}).
Proof.
  destruct (X7_context_is_created_on_the_last_bound_manager env_two_managers
              {| mgr_id := 4; mgr_global := 9; mgr_version := 2 |} 4 6
              (Some (listening_desc "/run/user/1000/isol-k3x_9q2a/wayland-1"))
              (Some (pipe_desc FdPipeWrite)) {| ctx_id := 5 |})
    as (reg & id_ & version & E & _ & _).
  - in_log.
  - vm_compute. reflexivity.
Defined.

(** ** The handler over a batch of events *)

Lemma deliver_all_app env evs1 evs2 w :
  deliver_all env (evs1 ++ evs2) w =
    match deliver_all env evs1 w with
    | (Ok _, w1) => deliver_all env evs2 w1
    | (Raise e, w1) => (Raise e, w1)
    end.
Proof.
  revert w. induction evs1 as [|ev evs1 IH]; intros w; [done|].
  cbn [app deliver_all]. munfold.
  destruct (deliver env ev w) as [[[]|e] w1]; [apply IH|done].
Qed.

(** X8: with the handler installed for the object [ext], after any batch of
    events [ext.manager] is the proxy bound for the last advertisement of
    the manager in the batch, carrying that advertisement's id and version:
    an earlier handle is overwritten, later events of other interfaces or
    kinds do not touch it. *)
Theorem X8_last_advertisement_wins env reg ext w evs1 id_ version evs2 :
  w_on_global w = Some (reg, ext) →
  ext < length (w_heap w) →
  no_manager_batch env {| b_events := evs2; b_result := 0 |} = true →
  ∃ w' m,
    deliver_all env (evs1 ++ EvGlobal id_ (env_manager_name env) version :: evs2) w
      = (Ok tt, w')
    ∧ w_heap w' !! ext = Some {| manager := Some m |}
    ∧ mgr_global m = id_
    ∧ mgr_version m = version.
Proof.
  intros Hg Hlen Hn.
  destruct (deliver_all_handled env evs1 w) as (w1 & E1 & H1).
  rewrite deliver_all_app, E1. cbn [deliver_all]. munfold.
  unfold deliver at 1. munfold. rewrite (h_on_global _ _ H1), Hg.
  unfold registry_global_handler. rewrite String.eqb_refl.
  unfold registry_bind, fresh_id, set_manager. munfold.
  rewrite (deliver_all_no_manager env _ _ Hn).
  eexists _, _. split; [reflexivity|].
  cbn [w_heap log set_heap bump_id].
  split.
  { apply list_lookup_insert_eq. by rewrite (h_heap_len _ _ H1). }
  by split.
Qed.

(** Two advertisements of the manager, then other events. *)
Lemma X8_witness :
  let w := set_on_global (Some ({| reg_id := 2 |}, 0))
             (set_heap (λ _, [{| manager := None |}]) (initial_world env_ok)) in
  ∃ w' m,
    deliver_all env_ok
      ([EvGlobal 7 "wp_security_context_manager_v1" 1]
         ++ EvGlobal 9 (env_manager_name env_ok) 2
         :: [EvGlobal 1 "wl_compositor" 5; EvGlobalRemove 7]) w = (Ok tt, w')
    ∧ w_heap w' !! 0 = Some {| manager := Some m |}
    ∧ mgr_global m = 9
    ∧ mgr_version m = 2.
Proof.
  intros w.
  apply (X8_last_advertisement_wins env_ok {| reg_id := 2 |} 0 w
           [EvGlobal 7 "wp_security_context_manager_v1" 1] 9 2
           [EvGlobal 1 "wl_compositor" 5; EvGlobalRemove 7]).
  - reflexivity.
  - vm_compute. lia.
  - vm_compute. reflexivity.
Defined.

(** ** The announcement of the runtime directory *)

(** X9: the line [rundir: <path>/] is printed exactly when [main] returns
    normally, and it is then the last thing the run does before the
    directory is removed; a failing run ends without that line. *)
Theorem X9_rundir_line_exactly_on_success env :
  (run env).1 = Ok tt
  ↔ ∃ d pre,
      w_calls (run env).2 = pre ++ [CPrint ("rundir: " +:+ d +:+ "/"); CRmtree d].
Proof.
  pose proof (run_trace env) as Ht.
  remember (w_calls (run env).2) as calls eqn:Ec.
  remember (run env).1 as r eqn:Er. clear Ec Er.
  split.
  - intros ->. inversion Ht as [| |d inner Hd|]; subst.
    exists d, (CMkdir d :: inner). by norm_app.
  - intros (d & pre & Hc). destruct r as [[]|e]; [done|exfalso].
    apply (f_equal (@rev Call)) in Hc.
    rewrite rev_app_distr in Hc. cbn [rev app] in Hc.
    inversion Ht as [e' He|d' e' inner Hd|
                     |d' e' inner He]; subst; cbn [rev] in Hc.
    + discriminate Hc.
    + rewrite rev_app_distr in Hc. cbn [rev app] in Hc.
      injection Hc as _ Hc.
      inversion Hd as [|dfd reg ext scan1 z1 scan2 z2 r' sock H1 H2 Hs
                       |dfd reg ext scan1 n H1]; subst;
        repeat first [ rewrite rev_app_distr in Hc
                     | progress cbn [rev app] in Hc ];
        discriminate Hc.
    + inversion He; subst;
        repeat first [ rewrite rev_app_distr in Hc
                     | progress cbn [rev app] in Hc ];
        discriminate Hc.
Qed.

(** The successful run [env_ok]. *)
Lemma X9_witness :
  (run env_ok).1 = Ok tt
  ∧ ∃ d pre,
      w_calls (run env_ok).2 = pre ++ [CPrint ("rundir: " +:+ d +:+ "/"); CRmtree d].
Proof.
  split; [vm_compute; reflexivity|].
  apply (proj1 (X9_rundir_line_exactly_on_success env_ok)).
  vm_compute. reflexivity.
Defined.

(** ** Success means acknowledged *)

(** X10: [main] returns normally exactly when the run got to the final
    round-trip, after the context was committed and its handle destroyed,
    and that round-trip returned a non-negative result: there is no other
    way to succeed. *)
Theorem X10_success_exactly_when_acknowledged env :
  (run env).1 = Ok tt
  ↔ ∃ z, final_roundtrip (w_calls (run env).2) = Some z ∧ (0 ≤ z)%Z.
Proof.
  split.
  - intros Hr. pose proof (run_trace env) as Ht. rewrite Hr in Ht. clear Hr.
    remember (w_calls (run env).2) as calls eqn:Ec. clear Ec.
    inv_trace.
    match goal with
    | H : (if (?z <? 0)%Z then _ else _) = _ |- _ =>
        destruct (Z.ltb_spec z 0); [done|];
        exists z; split; [by eval_final|done]
    end.
  - intros (z & Hf & Hz).
    rewrite (final_roundtrip_decides _ _ _ (run_trace env) Hf).
    by rewrite (proj2 (Z.ltb_ge z 0) Hz).
Qed.

(** The run [env_ok], whose final round-trip returns 0. *)
Lemma X10_witness :
  (run env_ok).1 = Ok tt
  ∧ ∃ z, final_roundtrip (w_calls (run env_ok).2) = Some z ∧ (0 ≤ z)%Z.
Proof.
  split; [vm_compute; reflexivity|].
  apply (proj1 (X10_success_exactly_when_acknowledged env_ok)).
  vm_compute. reflexivity.
Defined.

(** X11: once [create_listener] was called, nothing on the script's side
    stops the run before the final round-trip: the attributes are set, the
    context is committed and destroyed, and the round-trip is made; so the
    run ends normally or with the error of line 43, never with another
    one. *)
Theorem X11_created_context_reaches_the_final_roundtrip env m l c ld cd ctx :
  CCreateListener m l c ld cd ctx ∈ w_calls (run env).2 →
  (∃ z, final_roundtrip (w_calls (run env).2) = Some z)
  ∧ ((run env).1 = Ok tt
     ∨ (run env).1 = Raise (RuntimeError "Roundtrip failed")).
Proof.
  intros H.
  destruct (final_roundtrip_reached _ _ _ _ _ _ _ _ (run_trace env) H) as [z Hz].
  split; [by exists z|].
  rewrite (final_roundtrip_decides _ _ _ (run_trace env) Hz).
  destruct (z <? 0)%Z; auto.
Qed.

(** The run [env_nack] creates a context and fails at line 43. *)
Lemma X11_witness :
  (∃ z, final_roundtrip (w_calls (run env_nack).2) = Some z)
  ∧ ((run env_nack).1 = Ok tt
     ∨ (run env_nack).1 = Raise (RuntimeError "Roundtrip failed")).
Proof.
  apply (X11_created_context_reaches_the_final_roundtrip env_nack
           {| mgr_id := 3; mgr_global := 7; mgr_version := 1 |} 4 6
           (Some (listening_desc "/run/user/1000/isol-k3x_9q2a/wayland-1"))
           (Some (pipe_desc FdPipeWrite)) {| ctx_id := 4 |}).
  in_log.
Defined.

(** ** A runtime directory that cannot be used *)

Lemma no_sep_before (s : string) :
  Py.after_last_sep s = None → Py.before_last_sep s = None.
Proof.
  induction s as [|c s IH]; [done|]. cbn [Py.after_last_sep Py.before_last_sep].
  destruct (Py.after_last_sep s); [done|]. rewrite IH by done.
  by destruct (bool_decide (c = "/"%char)).
Qed.

Lemma before_last_sep_slash (a x : string) :
  Py.before_last_sep x = None →
  Py.before_last_sep (a +:+ String "/" x) = Some a.
Proof.
  intros Hx. induction a as [|c a IH]; simpl.
  - by rewrite Hx.
  - by rewrite IH.
Qed.

(** The candidate directories of [mkdtemp] lie directly in the directory it
    is given. *)
Lemma before_last_sep_rundir (dir name : string) :
  Py.has_sep name = false → dir ≠ "" → Py.endswith_sep dir = false →
  Py.before_last_sep (Py.join dir ("isol-" +:+ name)) = Some dir.
Proof.
  unfold Py.has_sep. intros Hn Hd He.
  assert (Hname : Py.after_last_sep name = None).
  { destruct (Py.after_last_sep name); [|done].
    rewrite bool_decide_eq_true_2 in Hn by eauto. done. }
  assert (Hx : Py.before_last_sep ("isol-" +:+ name) = None).
  { simpl. change ("" +:+ name) with name. by rewrite (no_sep_before _ Hname). }
  unfold Py.join.
  replace (Py.startswith ("isol-" +:+ name) "/") with false by done.
  rewrite bool_decide_eq_false_2 by done. rewrite He. cbn [orb].
  change ("/" +:+ ("isol-" +:+ name)) with (String "/" ("isol-" +:+ name)).
  by apply before_last_sep_slash.
Qed.

(** X13: when the path of the runtime directory is not a directory but a
    file, [main] ends with the [NotADirectoryError] of the first [mkdir]
    that [mkdtemp] tries, and has done nothing: no further name is tried,
    nothing is created, connected or printed. *)
Theorem X13_runtime_directory_that_is_a_file env name rest :
  env_names env = name :: rest →
  Py.has_sep name = false →
  env_dir env ≠ "" →
  Py.endswith_sep (env_dir env) = false →
  env_fs env !! env_dir env = None →
  node_at (env_fs env) (env_dir env) = Some NFile →
  run env =
    (Raise (NotADirectoryError (Py.join (env_dir env) ("isol-" +:+ name))),
     initial_world env).
Proof.
  intros Hnames Hsep Hd He Hfs Hnode.
  unfold run, main, with_, TemporaryDirectory_new, xdg_runtime_dir. munfold.
  rewrite Hnames. cbn [mkdtemp]. unfold os_mkdir, fs_create.
  rewrite (before_last_sep_rundir _ _ Hsep Hd He).
  cbn [w_fs initial_world]. rewrite Hfs.
  cbn [blocked_by_file]. by rewrite Hnode.
Qed.

(** The session in which [/run/user/1000] is a regular file. *)
Lemma X13_witness :
  run env_not_a_directory =
    (Raise (NotADirectoryError "/run/user/1000/isol-k3x_9q2a"),
     initial_world env_not_a_directory).
Proof.
  apply (X13_runtime_directory_that_is_a_file env_not_a_directory "k3x_9q2a" []);
    try reflexivity.
  discriminate.
Defined.
